(** * sanctum-library: the scan / lookup / save page

    A shallow embedding of [static/js/api.js] (the request client) and
    [static/js/scan.js] (the scan workflow controller), with the properties
    the specification states about them.

    Conventions of the embedding.
    - A JavaScript string is a [string]: the bytes of its UTF-8 encoding.
    - A JavaScript number is a [jsnum]: NaN, the two infinities, or an exact
      rational (rounding to a double is not modelled).
    - A value that came out of [JSON.parse] is a [jsval].
    - Code that may throw runs in the monad [M]: a state transformer that
      returns either a value or the exception.
    - An [async] function is cut at its [await]: the part that runs when the
      handler is called, and the part that runs when the response arrives. *)

From Stdlib Require Import String Ascii List ZArith QArith Bool Lia.
From Stdlib Require Import DecimalString.
Import ListNotations.
Open Scope string_scope.
Open Scope Z_scope.

(** ** Characters and strings *)

Definition code_of (c : ascii) : N := N_of_ascii c.

Definition chr (n : N) : string := String (ascii_of_N n) EmptyString.

(** The double quote and the line feed, which a literal cannot hold. *)
Definition dq : string := chr 34.
Definition nl : string := chr 10.

(** ASCII white space and line terminators: TAB, LF, VT, FF, CR, SP. *)
Definition ws1 (a : ascii) : bool :=
  let n := code_of a in
  (N.leb 9 n && N.leb n 13) || N.eqb n 32.

(** U+00A0, as the UTF-8 bytes C2 A0. *)
Definition ws2 (a b : ascii) : bool :=
  N.eqb (code_of a) 194 && N.eqb (code_of b) 160.

(** U+1680, U+2000..U+200A, U+2028, U+2029, U+202F, U+205F, U+3000 and
    U+FEFF, as their three UTF-8 bytes. *)
Definition ws3 (a b c : ascii) : bool :=
  let x := code_of a in
  let y := code_of b in
  let z := code_of c in
  (N.eqb x 225 && N.eqb y 154 && N.eqb z 128)
  || (N.eqb x 226 && N.eqb y 128
      && ((N.leb 128 z && N.leb z 138) || N.eqb z 168 || N.eqb z 169 || N.eqb z 175))
  || (N.eqb x 226 && N.eqb y 129 && N.eqb z 159)
  || (N.eqb x 227 && N.eqb y 128 && N.eqb z 128)
  || (N.eqb x 239 && N.eqb y 187 && N.eqb z 191).

(** Drops the white space at the head of [l]. With [bk] the list is read
    backwards (it is the reverse of a string), so the bytes of one character
    come last byte first. *)
Fixpoint strip (bk : bool) (l : list ascii) : list ascii :=
  match l with
  | [] => []
  | a :: t =>
      if ws1 a then strip bk t
      else
        match t with
        | [] => l
        | b :: t2 =>
            if (if bk then ws2 b a else ws2 a b) then strip bk t2
            else
              match t2 with
              | [] => l
              | c :: t3 =>
                  if (if bk then ws3 c b a else ws3 a b c) then strip bk t3
                  else l
              end
        end
  end.

(** [String.prototype.trim]. *)
Definition trim (s : string) : string :=
  string_of_list_ascii
    (rev (strip true (rev (strip false (list_ascii_of_string s))))).

(** JavaScript truthiness of a string: it is not empty. *)
Definition nonempty (s : string) : bool :=
  match s with
  | EmptyString => false
  | String _ _ => true
  end.

Definition upper_ascii (a : ascii) : ascii :=
  let n := code_of a in
  if N.leb 97 n && N.leb n 122 then ascii_of_N (n - 32) else a.

(** [String.prototype.toUpperCase], on the ASCII letters (the bytes of other
    characters are kept as they are). *)
Fixpoint toUpperCase (s : string) : string :=
  match s with
  | EmptyString => EmptyString
  | String a t => String (upper_ascii a) (toUpperCase t)
  end.

(** [Array.prototype.join] over strings. *)
Fixpoint join (sep : string) (l : list string) : string :=
  match l with
  | [] => EmptyString
  | [x] => x
  | x :: t => x ++ sep ++ join sep t
  end.

(** [String.prototype.replaceAll] with a search string of one character:
    every occurrence is replaced, left to right, and the replacement is not
    searched again. *)
Fixpoint replaceAll (pat : ascii) (rep : string) (s : string) : string :=
  match s with
  | EmptyString => EmptyString
  | String a t =>
      if Ascii.eqb a pat then rep ++ replaceAll pat rep t
      else String a (replaceAll pat rep t)
  end.

(** ** Numbers *)

Inductive jsnum : Type :=
| NaN
| PosInf
| NegInf
| Fin (q : Q).

Definition num_of_Z (z : Z) : jsnum := Fin (inject_Z z).

(** [Math.min] and [Math.max] of two numbers: NaN if either is NaN. *)
Definition Math_min (a b : jsnum) : jsnum :=
  match a, b with
  | NaN, _ | _, NaN => NaN
  | NegInf, _ | _, NegInf => NegInf
  | PosInf, x | x, PosInf => x
  | Fin p, Fin q => if Qle_bool p q then Fin p else Fin q
  end.

Definition Math_max (a b : jsnum) : jsnum :=
  match a, b with
  | NaN, _ | _, NaN => NaN
  | PosInf, _ | _, PosInf => PosInf
  | NegInf, x | x, NegInf => x
  | Fin p, Fin q => if Qle_bool p q then Fin q else Fin p
  end.

(** The value of a digit in a base up to 16, if it is one. *)
Definition digit_val (base : N) (a : ascii) : option N :=
  let n := code_of a in
  let v :=
    if N.leb 48 n && N.leb n 57 then Some (n - 48)%N
    else if N.leb 97 n && N.leb n 102 then Some (n - 87)%N
    else if N.leb 65 n && N.leb n 70 then Some (n - 55)%N
    else None in
  match v with
  | Some d => if N.ltb d base then Some d else None
  | None => None
  end.

(** Reads the longest run of digits at the head of [l]: how many there are,
    their value, and the rest. *)
Fixpoint digits (base : N) (acc : N) (cnt : nat) (l : list ascii)
  : nat * N * list ascii :=
  match l with
  | [] => (cnt, acc, [])
  | a :: t =>
      match digit_val base a with
      | Some d => digits base (acc * base + d)%N (S cnt) t
      | None => (cnt, acc, l)
      end
  end.

(** A literal made of digits only, in the given base. *)
Definition radix_literal (base : N) (l : list ascii) : jsnum :=
  match digits base 0%N 0%nat l with
  | (S _, v, []) => num_of_Z (Z.of_N v)
  | _ => NaN
  end.

Definition is_char (a : ascii) (n : N) : bool := N.eqb (code_of a) n.

(** The exponent part of a decimal literal, which must end the input:
    nothing, or [e] or [E], an optional sign, and at least one digit. *)
Definition exponent_part (l : list ascii) : option Z :=
  match l with
  | [] => Some 0
  | e :: t =>
      if is_char e 101 || is_char e 69 then
        let '(neg, t') :=
          match t with
          | s :: u =>
              if is_char s 45 then (true, u)
              else if is_char s 43 then (false, u)
              else (false, t)
          | [] => (false, t)
          end in
        match digits 10 0%N 0%nat t' with
        | (S _, v, []) => Some (if neg then - Z.of_N v else Z.of_N v)
        | _ => None
        end
      else None
  end.

(** An unsigned decimal literal: digits, an optional point and fraction
    (one of the two digit runs may be empty, not both), an optional
    exponent. *)
Definition unsigned_decimal (l : list ascii) : option Q :=
  let '(ci, vi, r1) := digits 10 0%N 0%nat l in
  let '(cf, vf, r2) :=
    match r1 with
    | p :: t => if is_char p 46 then digits 10 0%N 0%nat t else (0%nat, 0%N, r1)
    | [] => (0%nat, 0%N, r1)
    end in
  match (ci + cf)%nat with
  | O => None
  | S _ =>
      match exponent_part r2 with
      | Some e =>
          let mant := (Z.of_N vi * 10 ^ Z.of_nat cf + Z.of_N vf) in
          Some (inject_Z mant * Qpower (inject_Z 10) (e - Z.of_nat cf))%Q
      | None => None
      end
  end.

Definition Infinity_chars : list ascii := list_ascii_of_string "Infinity".

Definition list_ascii_eqb (x y : list ascii) : bool :=
  String.eqb (string_of_list_ascii x) (string_of_list_ascii y).

Definition signed_decimal (neg : bool) (l : list ascii) : jsnum :=
  if list_ascii_eqb l Infinity_chars then (if neg then NegInf else PosInf)
  else
    match unsigned_decimal l with
    | Some q => Fin (if neg then Qopp q else q)
    | None => NaN
    end.

(** [Number(s)] for a string [s] (ECMAScript's StringToNumber): white space
    around the literal is dropped, the empty string is 0, and a string that
    is not a numeric literal is NaN. *)
Definition StringToNumber (s : string) : jsnum :=
  match list_ascii_of_string (trim s) with
  | [] => num_of_Z 0
  | a :: t =>
      let l := a :: t in
      if is_char a 45 then signed_decimal true t
      else if is_char a 43 then signed_decimal false t
      else
        match t with
        | b :: u =>
            if is_char a 48 && (is_char b 120 || is_char b 88) then radix_literal 16 u
            else if is_char a 48 && (is_char b 111 || is_char b 79) then radix_literal 8 u
            else if is_char a 48 && (is_char b 98 || is_char b 66) then radix_literal 2 u
            else signed_decimal false l
        | [] => signed_decimal false l
        end
  end.

(** ** JSON values *)

(** What a response body parses to, and [undefined] for a property that is
    not there. An object is the list of its own properties, each key once. *)
#[warnings="-register-all"]
Inductive jsval : Type :=
| JUndefined
| JNull
| JBool (b : bool)
| JNum (n : jsnum)
| JStr (s : string)
| JArr (xs : list jsval)
| JObj (kvs : list (string * jsval)).

(** Truthiness, as [if (v)], [!v], [v || w] and [v ? a : b] read it. *)
Definition truthy (v : jsval) : bool :=
  match v with
  | JUndefined | JNull => false
  | JBool b => b
  | JNum NaN => false
  | JNum (Fin q) => negb (Qeq_bool q 0)
  | JNum _ => true
  | JStr s => nonempty s
  | JArr _ | JObj _ => true
  end.

(** [v || w]. *)
Definition or_else (v w : jsval) : jsval := if truthy v then v else w.

(** [v === null || v === undefined]. *)
Definition nullish (v : jsval) : bool :=
  match v with
  | JUndefined | JNull => true
  | _ => false
  end.

Fixpoint assoc (k : string) (kvs : list (string * jsval)) : jsval :=
  match kvs with
  | [] => JUndefined
  | (k', v) :: t => if String.eqb k k' then v else assoc k t
  end.

(** ** Exceptions *)

Record exn : Type := { ename : string; emessage : string }.

(** [new Error(msg)]. *)
Definition Error (msg : string) : exn := {| ename := "Error"; emessage := msg |}.

(** [String(e)] for an error object ([Error.prototype.toString]). *)
Definition exn_toString (e : exn) : string :=
  if negb (nonempty (ename e)) then emessage e
  else if negb (nonempty (emessage e)) then ename e
  else ename e ++ ": " ++ emessage e.

(** What makes the engine throw a [TypeError] in this code: reading a
    or writing a property of [null] or [undefined] (a missing element is
    [null]), and calling what is not a function. *)
Inductive fault : Type :=
| ReadOfNullish (v : jsval) (prop : string)
| WriteOfNull (prop : string)
| NotAFunction (prop : string).

(** A computation that touches no state: a value or an exception. *)
Definition E (A : Type) : Type := (exn + A)%type.

(** ** The page *)

(** The elements [els] names. The page is taken to have the first eleven;
    the last seven are the ones the script reaches through [?.] or a guard,
    and may be missing. *)
Inductive elem : Type :=
| code | btnLookup | btnSave | btnClear
| status | preview | cover | title | meta | provider | raw
| scannerMode | scannerDelay | scannerDelayInput
| btnRefreshAll | chkDryRun | refreshReport | refreshList.

(** The string properties the script reads or writes ([style.display] and
    [style.borderColor] among them), and the boolean ones ([hidden] is the
    class of that name in [classList]). *)
Inductive attr : Type :=
| value | display | borderColor | textContent | src | innerHTML.

Inductive flag : Type := disabled | checked | hidden.

Definition elem_ix (e : elem) : N :=
  match e with
  | code => 0 | btnLookup => 1 | btnSave => 2 | btnClear => 3
  | status => 4 | preview => 5 | cover => 6 | title => 7 | meta => 8
  | provider => 9 | raw => 10 | scannerMode => 11 | scannerDelay => 12
  | scannerDelayInput => 13 | btnRefreshAll => 14 | chkDryRun => 15
  | refreshReport => 16 | refreshList => 17
  end%N.

Definition attr_ix (a : attr) : N :=
  match a with
  | value => 0 | display => 1 | borderColor => 2 | textContent => 3
  | src => 4 | innerHTML => 5
  end%N.

Definition flag_ix (f : flag) : N :=
  match f with disabled => 0 | checked => 1 | hidden => 2 end%N.

Definition elem_eqb (x y : elem) : bool := N.eqb (elem_ix x) (elem_ix y).
Definition attr_eqb (x y : attr) : bool := N.eqb (attr_ix x) (attr_ix y).
Definition flag_eqb (x y : flag) : bool := N.eqb (flag_ix x) (flag_ix y).

Record Dom : Type := {
  present : elem -> bool;
  sprop : elem -> attr -> string;
  bprop : elem -> flag -> bool
}.

Definition set_sprop (e : elem) (a : attr) (v : string) (d : Dom) : Dom :=
  {| present := present d;
     sprop := fun e' a' =>
       if elem_eqb e' e && attr_eqb a' a then v else sprop d e' a';
     bprop := bprop d |}.

Definition set_bprop (e : elem) (f : flag) (v : bool) (d : Dom) : Dom :=
  {| present := present d;
     sprop := sprop d;
     bprop := fun e' f' =>
       if elem_eqb e' e && flag_eqb f' f then v else bprop d e' f' |}.

(** ** The state of the page and of the browser around it *)

(** An [async] handler that waits for its response. *)
Inductive pending : Type := InLookup | InSave | InRefresh.

(** A call of [fetch]. *)
Record request : Type := {
  path : string;
  method : string;
  content_type : string;
  body : string
}.

(** What [fetch] and [res.text()] give back: the promise is rejected, or
    there is a response with its status, its text, and what [JSON.parse]
    makes of the text ([None] when it throws). *)
Record response : Type := {
  res_status : Z;
  res_text : string;
  res_json : option jsval
}.

Inductive outcome : Type :=
| Rejected (e : exn)
| Responded (r : response).

(** [res.ok]. *)
Definition res_ok (r : response) : bool :=
  Z.leb 200 (res_status r) && Z.leb (res_status r) 299.

Record State : Type := {
  dom : Dom;
  (* the two variables of the script *)
  lastLookup : jsval;
  lookupTimer : option positive;
  (* the browser: timeouts that are set and have not fired, the next
     timeout id, the handlers that wait for a response, every request
     sent so far (the newest first), and the cookies *)
  timers : list (positive * jsnum);
  next_timer : positive;
  awaiting : list (positive * pending);
  sent : list request;
  cookies : list (string * string)
}.

Definition set_dom (v : Dom) (s : State) : State :=
  {| dom := v; lastLookup := lastLookup s; lookupTimer := lookupTimer s;
     timers := timers s; next_timer := next_timer s; awaiting := awaiting s;
     sent := sent s; cookies := cookies s |}.

Definition set_lastLookup (v : jsval) (s : State) : State :=
  {| dom := dom s; lastLookup := v; lookupTimer := lookupTimer s;
     timers := timers s; next_timer := next_timer s; awaiting := awaiting s;
     sent := sent s; cookies := cookies s |}.

Definition set_lookupTimer (v : option positive) (s : State) : State :=
  {| dom := dom s; lastLookup := lastLookup s; lookupTimer := v;
     timers := timers s; next_timer := next_timer s; awaiting := awaiting s;
     sent := sent s; cookies := cookies s |}.

Definition set_timers (v : list (positive * jsnum)) (s : State) : State :=
  {| dom := dom s; lastLookup := lastLookup s; lookupTimer := lookupTimer s;
     timers := v; next_timer := next_timer s; awaiting := awaiting s;
     sent := sent s; cookies := cookies s |}.

Definition set_next_timer (v : positive) (s : State) : State :=
  {| dom := dom s; lastLookup := lastLookup s; lookupTimer := lookupTimer s;
     timers := timers s; next_timer := v; awaiting := awaiting s;
     sent := sent s; cookies := cookies s |}.

Definition set_awaiting (v : list (positive * pending)) (s : State) : State :=
  {| dom := dom s; lastLookup := lastLookup s; lookupTimer := lookupTimer s;
     timers := timers s; next_timer := next_timer s; awaiting := v;
     sent := sent s; cookies := cookies s |}.

Definition set_sent (v : list request) (s : State) : State :=
  {| dom := dom s; lastLookup := lastLookup s; lookupTimer := lookupTimer s;
     timers := timers s; next_timer := next_timer s; awaiting := awaiting s;
     sent := v; cookies := cookies s |}.

Definition set_cookies (v : list (string * string)) (s : State) : State :=
  {| dom := dom s; lastLookup := lastLookup s; lookupTimer := lookupTimer s;
     timers := timers s; next_timer := next_timer s; awaiting := awaiting s;
     sent := sent s; cookies := v |}.

(** ** Computations that may throw *)

Definition M (A : Type) : Type := State -> State * E A.

Definition ret {A} (x : A) : M A := fun s => (s, inr x).

Definition bind {A B} (m : M A) (k : A -> M B) : M B :=
  fun s =>
    match m s with
    | (s', inr x) => k x s'
    | (s', inl e) => (s', inl e)
    end.

(** [try { m } catch (e) { h e }]. *)
Definition try_catch {A} (m : M A) (h : exn -> M A) : M A :=
  fun s =>
    match m s with
    | (s', inl e) => h e s'
    | r => r
    end.

Definition lift {A} (c : E A) : M A := fun s => (s, c).

Definition gets {A} (f : State -> A) : M A := fun s => (s, inr (f s)).

Definition modify (f : State -> State) : M unit := fun s => (f s, inr tt).

(** Calling an [async] function: the caller gets a promise, and what the
    function throws rejects the promise instead of reaching the caller. *)
Definition async_call (m : M unit) : M unit := fun s => (fst (m s), inr tt).

Notation "x <- m ;; k" := (bind m (fun x => k))
  (at level 61, m at next level, right associativity).
Notation "m ;; k" := (bind m (fun _ => k))
  (at level 61, right associativity).

Definition ebind {A B} (c : E A) (k : A -> E B) : E B :=
  match c with
  | inr x => k x
  | inl e => inl e
  end.

(** Writing a property of an element. *)
Definition setS (e : elem) (a : attr) (v : string) : M unit :=
  modify (fun s => set_dom (set_sprop e a v (dom s)) s).

Definition setB (e : elem) (f : flag) (v : bool) : M unit :=
  modify (fun s => set_dom (set_bprop e f v (dom s)) s).

(** [window.setTimeout] and [window.clearTimeout]. *)
Definition setTimeout (ms : jsnum) : M positive :=
  fun s =>
    let id := next_timer s in
    (set_next_timer (Pos.succ id) (set_timers ((id, ms) :: timers s) s), inr id).

Definition drop_key {A} (id : positive) (l : list (positive * A))
  : list (positive * A) :=
  filter (fun p => negb (Pos.eqb (fst p) id)) l.

Definition clearTimeout (id : positive) : M unit :=
  modify (fun s => set_timers (drop_key id (timers s)) s).

Fixpoint find_key {A} (id : positive) (l : list (positive * A)) : option A :=
  match l with
  | [] => None
  | (k, x) :: t => if Pos.eqb k id then Some x else find_key id t
  end.

(** [cookies.js]: [setCookie] writes the pair and [getCookie] reads it back
    ([null] when there is none); the encoding of the value, the path and the
    expiry are left out. *)
Definition setCookie (name v : string) : M unit :=
  modify (fun s =>
    set_cookies
      ((name, v) :: filter (fun p => negb (String.eqb (fst p) name)) (cookies s)) s).

Fixpoint cookie_of (name : string) (l : list (string * string)) : option string :=
  match l with
  | [] => None
  | (k, v) :: t => if String.eqb k name then Some v else cookie_of name t
  end.

Definition getCookie (name : string) : M (option string) :=
  gets (fun s => cookie_of name (cookies s)).

Definition COOKIE_SCANNER_MODE : string := "scanner_mode".
Definition COOKIE_SCANNER_DELAY : string := "scanner_delay".

(** ** The platform *)

(** What the engine decides and the script does not: how a number that is
    not a small integer prints, [JSON.stringify(v, null, indent)], and the
    message of a [TypeError] it throws. *)
Class Platform : Type := {
  float_toString : Q -> string;
  JSON_stringify : jsval -> Z -> string;
  engine_message : fault -> string
}.

Definition Z_toString (z : Z) : string := NilZero.string_of_int (Z.to_int z).

(** [String(n)] for a number: an integer below 10^21 prints its digits, and
    [other] prints the rest. *)
Definition print_number (other : Q -> string) (n : jsnum) : string :=
  match n with
  | NaN => "NaN"
  | PosInf => "Infinity"
  | NegInf => "-Infinity"
  | Fin q =>
      let z := Z.div (Qnum q) (Zpos (Qden q)) in
      if Z.eqb (Z.modulo (Qnum q) (Zpos (Qden q))) 0 && Z.ltb (Z.abs z) (10 ^ 21)
      then Z_toString z
      else other q
  end.

Section Page.

Context {P : Platform}.

(** ** Conversions of the language *)

Definition Number_toString (n : jsnum) : string := print_number float_toString n.

(** [String(v)], which is also how a template literal and [+] with a string
    read [v]. *)
Fixpoint ToString (v : jsval) : string :=
  match v with
  | JUndefined => "undefined"
  | JNull => "null"
  | JBool true => "true"
  | JBool false => "false"
  | JNum n => Number_toString n
  | JStr s => s
  | JArr xs =>
      join ","
        (map (fun x => match x with
                       | JUndefined | JNull => EmptyString
                       | _ => ToString x
                       end) xs)
  | JObj _ => "[object Object]"
  end.

Definition TypeError (f : fault) : exn :=
  {| ename := "TypeError"; emessage := engine_message f |}.

(** [v.k] for a [v] that is not [null] or [undefined]. None of the names
    the script reads is a property of a string, a number, a boolean or an
    array. *)
Definition prop (v : jsval) (k : string) : jsval :=
  match v with
  | JObj kvs => assoc k kvs
  | _ => JUndefined
  end.

(** [v.k]. *)
Definition get_prop (v : jsval) (k : string) : E jsval :=
  if nullish v then inl (TypeError (ReadOfNullish v k)) else inr (prop v k).

(** [v?.k]. *)
Definition opt_prop (v : jsval) (k : string) : jsval :=
  if nullish v then JUndefined else prop v k.

(** [v.length], for a [v] that is not [null] or [undefined] (of a string,
    the number of its bytes: zero for the empty string only). *)
Definition length_of (v : jsval) : jsval :=
  match v with
  | JArr xs => JNum (num_of_Z (Z.of_nat (List.length xs)))
  | JStr s => JNum (num_of_Z (Z.of_nat (String.length s)))
  | JObj kvs => assoc "length" kvs
  | _ => JUndefined
  end.

(** [Array.prototype.join] on values. *)
Definition array_join (xs : list jsval) (sep : string) : string :=
  join sep
    (map (fun x => match x with
                   | JUndefined | JNull => EmptyString
                   | _ => ToString x
                   end) xs).

(** [v.join(sep)]: only an array has the method. *)
Definition call_join (v : jsval) (sep : string) : E string :=
  match v with
  | JArr xs => inr (array_join xs sep)
  | JUndefined | JNull => inl (TypeError (ReadOfNullish v "join"))
  | _ => inl (TypeError (NotAFunction "join"))
  end.

(** [v.toUpperCase()]: only a string has the method. *)
Definition call_toUpperCase (v : jsval) : E string :=
  match v with
  | JStr s => inr (toUpperCase s)
  | JUndefined | JNull => inl (TypeError (ReadOfNullish v "toUpperCase"))
  | _ => inl (TypeError (NotAFunction "toUpperCase"))
  end.

Fixpoint mapE {A B} (f : A -> E B) (l : list A) : E (list B) :=
  match l with
  | [] => inr []
  | x :: t => ebind (f x) (fun y => ebind (mapE f t) (fun ys => inr (y :: ys)))
  end.

(** ** static/js/api.js *)

(** The body as [apiPost] reads it: [null] for an empty text, the parsed
    value, or the object that stands for a text that does not parse. *)
Definition apiPost_data (r : response) : jsval :=
  if nonempty (res_text r) then
    match res_json r with
    | Some v => v
    | None => JObj [("error", JStr "Non-JSON response"); ("raw", JStr (res_text r))]
    end
  else JNull.

(** [apiPost] up to its first [await]: the call of [fetch]. The handler
    that called it waits for the response under the request's number.
    (Every caller passes a payload, so [payload ?? {}] is the payload.) *)
Definition apiPost_send (who : pending) (p : string) (payload : jsval) : M unit :=
  modify (fun s =>
    let rid := Pos.of_succ_nat (List.length (sent s)) in
    set_awaiting ((rid, who) :: awaiting s)
      (set_sent ({| path := p; method := "POST";
                    content_type := "application/json";
                    body := JSON_stringify payload 0 |} :: sent s) s)).

(** [apiPost] from the response on. *)
Definition apiPost_return (o : outcome) : E jsval :=
  match o with
  | Rejected e => inl e
  | Responded r =>
      let data := apiPost_data r in
      if negb (res_ok r) then
        let msg :=
          if truthy data && truthy (prop data "error")
          then ToString (prop data "error")
          else "HTTP " ++ Number_toString (num_of_Z (res_status r)) in
        inl (Error msg)
      else inr data
  end.

(** ** static/js/scan.js: helpers *)

Definition has (e : elem) (s : State) : bool := present (dom s) e.

(** The five characters [escapeHtml] searches: [&], [<], [>], the double
    quote and the single quote. *)
Definition c_amp : ascii := ascii_of_N 38.
Definition c_lt : ascii := ascii_of_N 60.
Definition c_gt : ascii := ascii_of_N 62.
Definition c_quot : ascii := ascii_of_N 34.
Definition c_apos : ascii := ascii_of_N 39.

Definition escapeHtml (s : jsval) : string :=
  replaceAll c_apos "&#039;"
    (replaceAll c_quot "&quot;"
       (replaceAll c_gt "&gt;"
          (replaceAll c_lt "&lt;"
             (replaceAll c_amp "&amp;"
                (ToString (if nullish s then JStr EmptyString else s)))))).

(** The text of an item's title in the refresh report, of its sources and
    of its ISBN, before they are escaped. *)
Definition item_title (it : jsval) : string :=
  ToString (or_else (prop it "title") (JStr "(no title)"))
  ++ (if truthy (prop it "subtitle")
      then " — " ++ ToString (prop it "subtitle") else EmptyString).

Definition item_srcs (it : jsval) : E string :=
  ebind (call_join (or_else (prop it "sources") (JArr [])) " + ")
    (fun j => inr (if nonempty j then j else "unknown")).

Definition item_isbn (it : jsval) : jsval :=
  or_else (prop it "isbn") (JStr EmptyString).

(** The markup around the three fragments of an item. *)
Definition item_open : string :=
  nl ++ "          <label style=" ++ dq
  ++ "display:flex; gap:.5rem; align-items:flex-start; padding:.4rem 0;"
  ++ dq ++ ">" ++ nl
  ++ "            <input type=" ++ dq ++ "checkbox" ++ dq ++ " checked disabled>" ++ nl
  ++ "            <div>" ++ nl
  ++ "              <div><strong>".

Definition item_mid : string :=
  "</strong></div>" ++ nl
  ++ "              <div style=" ++ dq ++ "opacity:.75; font-size:.9em;" ++ dq ++ ">" ++ nl
  ++ "                ISBN: <code>".

Definition item_sep : string := "</code> · Source: ".

Definition item_close : string :=
  nl ++ "              </div>" ++ nl
  ++ "            </div>" ++ nl
  ++ "          </label>" ++ nl
  ++ "        ".

(** The function [renderRefreshReport] maps over the items. *)
Definition report_item (it : jsval) : E string :=
  ebind (get_prop it "title") (fun _ =>
  let title := item_title it in
  ebind (item_srcs it) (fun srcs =>
  let isbn := item_isbn it in
  inr (item_open ++ escapeHtml (JStr title)
       ++ item_mid ++ escapeHtml isbn
       ++ item_sep ++ escapeHtml (JStr srcs)
       ++ item_close))).

Definition renderRefreshReport (result : jsval) : M unit :=
  rr <- gets (has refreshReport) ;;
  rl <- gets (has refreshList) ;;
  if negb rr || negb rl then ret tt
  else
    let items := or_else (opt_prop result "updated_items") (JArr []) in
    if negb (truthy (length_of items)) then setS refreshReport display "none"
    else
      setS refreshReport display "block" ;;
      html <- lift (match items with
                    | JArr xs => ebind (mapE report_item xs)
                                   (fun l => inr (join EmptyString l))
                    | _ => inl (TypeError (NotAFunction "map"))
                    end) ;;
      setS refreshList innerHTML html.

Definition showStatus (msg : string) (isError : bool) : M unit :=
  setS status display "block" ;;
  setS status borderColor (if isError then "#d33" else "#ddd") ;;
  setS status textContent msg.

Definition clearUI : M unit :=
  setS status display "none" ;;
  setS preview display "none" ;;
  setS cover display "none" ;;
  setS cover src EmptyString ;;
  setS title textContent EmptyString ;;
  setS meta textContent EmptyString ;;
  setS provider textContent EmptyString ;;
  setS raw textContent "{}" ;;
  setB btnSave disabled true ;;
  modify (set_lastLookup JNull).

(** [e.message || fallback]. *)
Definition message_or (e : exn) (fallback : string) : string :=
  if nonempty (emessage e) then emessage e else fallback.

(** [book.language ? book.language.toUpperCase() : null]. *)
Definition book_language (book : jsval) : E jsval :=
  if truthy (prop book "language")
  then ebind (call_toUpperCase (prop book "language")) (fun u => inr (JStr u))
  else inr JNull.

(** [(book.sources || []).map(s => s?.provider).filter(Boolean)]. *)
Definition book_providers (book : jsval) : E (list jsval) :=
  match or_else (prop book "sources") (JArr []) with
  | JArr xs => inr (filter truthy (map (fun s => opt_prop s "provider") xs))
  | _ => inl (TypeError (NotAFunction "map"))
  end.

Definition renderLookup (result : jsval) : M unit :=
  modify (set_lastLookup result) ;;
  setS raw textContent (JSON_stringify result 2) ;;
  err <- lift (get_prop result "error") ;;
  if truthy err then
    showStatus (ToString err) true ;;
    setS preview display "none" ;;
    setB btnSave disabled true
  else
    kind <- lift (call_toUpperCase (prop result "kind")) ;;
    showStatus ("OK: " ++ kind ++ " " ++ ToString (prop result "value")) false ;;
    let book := prop result "book" in
    if negb (truthy book) then
      setS preview display "none" ;;
      setB btnSave disabled true
    else
      setS preview display "block" ;;
      let subtitle :=
        if truthy (prop book "subtitle")
        then " — " ++ ToString (prop book "subtitle") else EmptyString in
      setS title textContent
        (ToString (or_else (prop book "title") (JStr "(no title)")) ++ subtitle) ;;
      authors <- lift (call_join (or_else (prop book "authors") (JArr [])) ", ") ;;
      language <- lift (book_language book) ;;
      setS meta textContent
        (array_join
           (filter truthy
              [ or_else (JStr authors) (JStr "(no authors)");
                or_else (prop book "publish_date") (JStr "(no date)");
                if truthy (prop book "nb_pages")
                then JStr (ToString (prop book "nb_pages") ++ " pages") else JNull;
                language ])
           " · ") ;;
      srcs <- lift (book_providers book) ;;
      setS provider textContent
        ("Source: " ++ match srcs with
                       | [] => "unknown"
                       | _ :: _ => array_join srcs " + "
                       end) ;;
      let cover_image := prop book "cover_image" in
      (if truthy cover_image then
         setS cover src (ToString cover_image) ;;
         setS cover display "block"
       else setS cover display "none") ;;
      setB btnSave disabled false.

Definition updateScannerUI : M unit :=
  sm <- gets (has scannerMode) ;;
  sd <- gets (has scannerDelay) ;;
  if negb sm || negb sd then ret tt
  else
    chk <- gets (fun s => bprop (dom s) scannerMode checked) ;;
    sdi <- gets (has scannerDelayInput) ;;
    (if sdi then setB scannerDelayInput disabled (negb chk)
     else lift (inl (TypeError (WriteOfNull "disabled")))) ;;
    setB scannerDelay hidden (negb chk).

(** ** static/js/scan.js: the API calls *)

(** [doLookup] up to its [await]. *)
Definition doLookup : M unit :=
  v <- gets (fun s => sprop (dom s) code value) ;;
  let c := trim v in
  if negb (nonempty c) then ret tt
  else
    clearUI ;;
    showStatus "Looking up..." false ;;
    apiPost_send InLookup "/api/scan/lookup" (JObj [("code", JStr c)]).

(** The [try] block of [doLookup] from the response on, and the whole of
    what runs then. *)
Definition doLookup_try (o : outcome) : M unit :=
  result <- lift (apiPost_return o) ;;
  renderLookup result.

Definition doLookup_resume (o : outcome) : M unit :=
  try_catch (doLookup_try o)
    (fun e =>
       showStatus (message_or e "Lookup failed") true ;;
       setS raw textContent
         (JSON_stringify (JObj [("error", JStr (exn_toString e))]) 2)).

Definition doSave : M unit :=
  ll <- gets lastLookup ;;
  if negb (truthy (opt_prop ll "book")) then ret tt
  else
    showStatus "Saving..." false ;;
    apiPost_send InSave "/api/books" (JObj [("book", prop ll "book")]).

Definition doSave_try (o : outcome) : M unit :=
  result <- lift (apiPost_return o) ;;
  setS raw textContent (JSON_stringify result 2) ;;
  saved <- lift (get_prop result "saved") ;;
  showStatus
    ("Saved ✅  (" ++ ToString (or_else (opt_prop saved "id") (JStr "no id")) ++ ")")
    false ;;
  setB btnSave disabled true.

Definition doSave_resume (o : outcome) : M unit :=
  try_catch (doSave_try o)
    (fun e => showStatus (message_or e "Save failed") true).

(** The delay [scheduleLookup] computes from the value of the delay input
    ([None] when the page has no such input). *)
Definition delay_ms (input : option string) : jsnum :=
  let n :=
    match input with
    | Some v => if nonempty v then StringToNumber v else num_of_Z 250
    | None => num_of_Z 250
    end in
  Math_max (num_of_Z 50) (Math_min (num_of_Z 2000) n).

(** [els.scannerMode?.checked]. *)
Definition scanner_on (s : State) : bool :=
  has scannerMode s && bprop (dom s) scannerMode checked.

(** [els.scannerDelayInput?.value]. *)
Definition delay_input (s : State) : option string :=
  if has scannerDelayInput s then Some (sprop (dom s) scannerDelayInput value)
  else None.

Definition scheduleLookup : M unit :=
  on <- gets scanner_on ;;
  if negb on then ret tt
  else
    input <- gets delay_input ;;
    let ms := delay_ms input in
    t <- gets lookupTimer ;;
    match t with
    | Some id => clearTimeout id
    | None => ret tt
    end ;;
    id <- setTimeout ms ;;
    modify (set_lookupTimer (Some id)).

(** [refreshAllBooks] up to its [await]; [confirmed] is what the user
    answers to [confirm]. *)
Definition refreshAllBooks (confirmed : bool) : M unit :=
  if negb confirmed then ret tt
  else
    showStatus "Refreshing all books..." false ;;
    dry <- gets (fun s => if has chkDryRun s
                          then bprop (dom s) chkDryRun checked else false) ;;
    apiPost_send InRefresh "/api/books/refresh"
      (JObj [("dry_run", JBool dry); ("only_missing", JBool false)]).

Definition refreshAllBooks_try (o : outcome) : M unit :=
  result <- lift (apiPost_return o) ;;
  setS raw textContent (JSON_stringify result 2) ;;
  renderRefreshReport result ;;
  counts <- lift (get_prop result "counts") ;;
  updated <- lift (get_prop counts "updated") ;;
  skipped <- lift (get_prop counts "skipped") ;;
  failed <- lift (get_prop counts "failed") ;;
  showStatus
    ("Done: " ++ ToString updated ++ " updated · "
     ++ ToString skipped ++ " skipped · "
     ++ ToString failed ++ " failed") false.

Definition refreshAllBooks_resume (o : outcome) : M unit :=
  try_catch (refreshAllBooks_try o)
    (fun e => showStatus (message_or e "Refresh failed") true).

(** ** static/js/scan.js: the events *)

Inductive event : Type :=
| Load
| ClickLookup
| ClickSave
| ClickClear
| ClickRefreshAll (confirmed : bool)
| KeyDown (key : string)
| Input (v : string)
| ChangeScannerMode (b : bool)
| EditScannerDelay (v : string)
| ChangeScannerDelay (v : string)
| ToggleDryRun (b : bool)
| TimerFire (id : positive)
| Response (rid : positive) (o : outcome).

(** [if (lookupTimer) { clearTimeout(lookupTimer); lookupTimer = null; }]. *)
Definition cancelLookupTimer : M unit :=
  t <- gets lookupTimer ;;
  match t with
  | Some id => clearTimeout id ;; modify (set_lookupTimer None)
  | None => ret tt
  end.

Definition resume (who : pending) (o : outcome) : M unit :=
  match who with
  | InLookup => doLookup_resume o
  | InSave => doSave_resume o
  | InRefresh => refreshAllBooks_resume o
  end.

(** What the page does on an event: for a user's action, the change the
    browser makes and then the listener; for a timeout, its callback; for
    a response, the rest of the handler that waits for it. A disabled
    button gets no click, an element that is missing gets no event, and
    [focus()] changes nothing of the state. *)
Definition handle (ev : event) : M unit :=
  match ev with
  | Load =>
      clearUI ;;
      mode <- getCookie COOKIE_SCANNER_MODE ;;
      sm <- gets (has scannerMode) ;;
      match mode with
      | Some m => if sm then setB scannerMode checked (String.eqb m "1") else ret tt
      | None => ret tt
      end ;;
      delay <- getCookie COOKIE_SCANNER_DELAY ;;
      sdi <- gets (has scannerDelayInput) ;;
      match delay with
      | Some d => if nonempty d && sdi then setS scannerDelayInput value d else ret tt
      | None => ret tt
      end ;;
      updateScannerUI
  | ClickLookup => async_call doLookup
  | ClickSave =>
      off <- gets (fun s => bprop (dom s) btnSave disabled) ;;
      if off then ret tt
      else async_call doSave ;; setS code value EmptyString
  | ClickClear =>
      clearUI ;;
      setS code value EmptyString ;;
      cancelLookupTimer
  | ClickRefreshAll confirmed =>
      there <- gets (has btnRefreshAll) ;;
      if there then async_call (refreshAllBooks confirmed) else ret tt
  | KeyDown key =>
      if String.eqb key "Enter" then cancelLookupTimer ;; async_call doLookup
      else ret tt
  | Input v =>
      setS code value v ;;
      scheduleLookup
  | ChangeScannerMode b =>
      there <- gets (has scannerMode) ;;
      if there then
        setB scannerMode checked b ;;
        setCookie COOKIE_SCANNER_MODE (if b then "1" else "0") ;;
        updateScannerUI
      else ret tt
  | EditScannerDelay v =>
      there <- gets (has scannerDelayInput) ;;
      if there then setS scannerDelayInput value v else ret tt
  | ChangeScannerDelay v =>
      there <- gets (has scannerDelayInput) ;;
      if there then
        setS scannerDelayInput value v ;;
        setCookie COOKIE_SCANNER_DELAY v
      else ret tt
  | ToggleDryRun b =>
      there <- gets (has chkDryRun) ;;
      if there then setB chkDryRun checked b else ret tt
  | TimerFire id =>
      t <- gets (fun s => find_key id (timers s)) ;;
      match t with
      | Some _ =>
          clearTimeout id ;;
          modify (set_lookupTimer None) ;;
          async_call doLookup
      | None => ret tt
      end
  | Response rid o =>
      w <- gets (fun s => find_key rid (awaiting s)) ;;
      match w with
      | Some who =>
          modify (fun s => set_awaiting (drop_key rid (awaiting s)) s) ;;
          async_call (resume who o)
      | None => ret tt
      end
  end.

(** One event, and a sequence of events, from a state. *)
Definition step (ev : event) (s : State) : State := fst (handle ev s).

Definition run (evs : list event) (s : State) : State :=
  fold_left (fun s ev => step ev s) evs s.

End Page.

(** ** A platform to run examples on *)

(** The messages of V8. *)
Definition v8_message (f : fault) : string :=
  match f with
  | ReadOfNullish v p =>
      "Cannot read properties of "
      ++ (match v with JNull => "null" | _ => "undefined" end)
      ++ " (reading '" ++ p ++ "')"
  | WriteOfNull p => "Cannot set properties of null (setting '" ++ p ++ "')"
  | NotAFunction p => p ++ " is not a function"
  end.

(** The digits of [r / d] after the point, at most [n] of them. *)
Fixpoint fraction_digits (n : nat) (r d : Z) : string :=
  match n with
  | O => EmptyString
  | S n' =>
      if Z.eqb r 0 then EmptyString
      else chr (Z.to_N (48 + (10 * r) / d)) ++ fraction_digits n' ((10 * r) mod d) d
  end.

(** A fraction in plain decimal notation, to twenty places. The examples
    print integers only, which [Number_toString] prints itself. *)
Definition plain_float_toString (q : Q) : string :=
  let d := Zpos (Qden q) in
  let a := Z.abs (Qnum q) in
  (if Z.ltb (Qnum q) 0 then "-" else EmptyString)
  ++ NilZero.string_of_int (Z.to_int (a / d))
  ++ (if Z.eqb (a mod d) 0 then EmptyString
      else "." ++ fraction_digits 20 (a mod d) d).

Definition hex_digit (n : N) : string :=
  chr (if N.ltb n 10 then 48 + n else 87 + n)%N.

(** A character inside a JSON string. *)
Definition json_char (a : ascii) : string :=
  let n := code_of a in
  if N.eqb n 34 then "\" ++ dq
  else if N.eqb n 92 then "\\"
  else if N.eqb n 8 then "\b"
  else if N.eqb n 9 then "\t"
  else if N.eqb n 10 then "\n"
  else if N.eqb n 12 then "\f"
  else if N.eqb n 13 then "\r"
  else if N.ltb n 32 then "\u00" ++ hex_digit (n / 16) ++ hex_digit (n mod 16)
  else String a EmptyString.

Fixpoint json_chars (s : string) : string :=
  match s with
  | EmptyString => EmptyString
  | String a t => json_char a ++ json_chars t
  end.

Definition json_quote (s : string) : string := dq ++ json_chars s ++ dq.

Fixpoint spaces (n : nat) : string :=
  match n with
  | O => EmptyString
  | S n' => " " ++ spaces n'
  end.

(** The items of an array or an object, between its brackets, at the
    indentation [cur] with [ind] more inside. *)
Definition json_block (opening closing : string) (ind cur : nat)
    (items : list string) : string :=
  match items with
  | [] => opening ++ closing
  | _ :: _ =>
      match ind with
      | O => opening ++ join "," items ++ closing
      | S _ =>
          opening ++ nl ++ spaces (cur + ind)
          ++ join ("," ++ nl ++ spaces (cur + ind)) items
          ++ nl ++ spaces cur ++ closing
      end
  end.

(** [JSON.stringify(v, null, ind)] inside a document: [undefined] is
    [null] in an array, and a property that is [undefined] is left out.
    (Of [undefined] itself it returns [undefined], which an element shows
    as no text.) *)
Fixpoint json_text (ind cur : nat) (v : jsval) : string :=
  match v with
  | JUndefined | JNull => "null"
  | JBool true => "true"
  | JBool false => "false"
  | JNum (Fin q) => print_number plain_float_toString (Fin q)
  | JNum _ => "null"
  | JStr s => json_quote s
  | JArr xs =>
      json_block "[" "]" ind cur (map (json_text ind (cur + ind)) xs)
  | JObj kvs =>
      json_block "{" "}" ind cur
        (flat_map
           (fun kv =>
              match kv with
              | (_, JUndefined) => []
              | (k, x) =>
                  [json_quote k ++ (match ind with O => ":" | S _ => ": " end)
                   ++ json_text ind (cur + ind) x]
              end) kvs)
  end.

Definition plain_JSON_stringify (v : jsval) (indent : Z) : string :=
  match v with
  | JUndefined => EmptyString
  | _ => json_text (Z.to_nat indent) 0 v
  end.

Definition chrome : Platform :=
  {| float_toString := plain_float_toString;
     JSON_stringify := plain_JSON_stringify;
     engine_message := v8_message |}.

(** The page and the script on this platform. *)
Definition step0 : event -> State -> State := @step chrome.

Definition run0 : list event -> State -> State := @run chrome.

(** ** Where a page starts *)

(** The state when the script has been read: both variables are [null], no
    timeout is set, nothing was sent. *)
Definition init (d : Dom) (ck : list (string * string)) : State :=
  {| dom := d; lastLookup := JNull; lookupTimer := None;
     timers := []; next_timer := 1%positive;
     awaiting := []; sent := []; cookies := ck |}.

(** A page with every element, scanner mode checked or not, and the given
    text in the delay input. *)
Definition page (scanner : bool) (delay : string) : Dom :=
  {| present := fun _ => true;
     sprop := fun e a =>
       match e, a with
       | scannerDelayInput, value => delay
       | _, _ => EmptyString
       end;
     bprop := fun e f =>
       match e, f with
       | scannerMode, checked => scanner
       | _, _ => false
       end |}.

(** * What the specification says *)

(** ** Its words, as definitions *)

(** The entity the specification gives for a character, or the character
    itself. *)
Definition entity (c : ascii) : string :=
  if Ascii.eqb c c_amp then "&amp;"
  else if Ascii.eqb c c_lt then "&lt;"
  else if Ascii.eqb c c_gt then "&gt;"
  else if Ascii.eqb c c_quot then "&quot;"
  else if Ascii.eqb c c_apos then "&#039;"
  else String c EmptyString.

(** Every character of a string replaced by its entity, in one pass. *)
Fixpoint escape_each (s : string) : string :=
  match s with
  | EmptyString => EmptyString
  | String c t => entity c ++ escape_each t
  end.

(** The five replacements in a row, on a string. *)
Definition escape_chain (s : string) : string :=
  replaceAll c_apos "&#039;"
    (replaceAll c_quot "&quot;"
       (replaceAll c_gt "&gt;"
          (replaceAll c_lt "&lt;" (replaceAll c_amp "&amp;" s)))).

(** [s] starts with [p]. *)
Fixpoint starts_with (p s : string) : bool :=
  match p, s with
  | EmptyString, _ => true
  | String a p', String b s' => Ascii.eqb a b && starts_with p' s'
  | String _ _, EmptyString => false
  end.

(** What follows an [&] is the rest of one of the five entities. *)
Definition starts_entity (t : string) : bool :=
  starts_with "amp;" t || starts_with "lt;" t || starts_with "gt;" t
  || starts_with "quot;" t || starts_with "#039;" t.

(** A fragment of markup with no raw special character: no [<], [>] or
    quote, and no [&] but the one that opens one of the five entities. *)
Fixpoint html_safe (s : string) : bool :=
  match s with
  | EmptyString => true
  | String c t =>
      if Ascii.eqb c c_lt || Ascii.eqb c c_gt || Ascii.eqb c c_quot || Ascii.eqb c c_apos
      then false
      else if Ascii.eqb c c_amp then starts_entity t && html_safe t
      else html_safe t
  end.

(** A delay between 50 and 2000 milliseconds. *)
Definition in_range (n : jsnum) : Prop :=
  match n with
  | Fin q => (inject_Z 50 <= q /\ q <= inject_Z 2000)%Q
  | _ => False
  end.

(** [Number.isNaN]. *)
Definition is_NaN (n : jsnum) : bool :=
  match n with
  | NaN => true
  | _ => false
  end.

(** The delay input holds a number: it is missing or empty (the default is
    taken), or [Number] reads its value as a number. *)
Definition numeric (input : option string) : bool :=
  match input with
  | Some v => if nonempty v then negb (is_NaN (StringToNumber v)) else true
  | None => true
  end.

(** The status line shows [msg] as an error. *)
Definition shows_error (s : State) (msg : string) : Prop :=
  sprop (dom s) status textContent = msg
  /\ sprop (dom s) status borderColor = "#d33"
  /\ sprop (dom s) status display = "block".

(** The request [doLookup] sends for the code [c]. *)
Definition lookup_request {P : Platform} (c : string) : request :=
  {| path := "/api/scan/lookup"; method := "POST";
     content_type := "application/json";
     body := JSON_stringify (JObj [("code", JStr c)]) 0 |}.




(** The save button is disabled. *)
Definition save_off (s : State) : Prop := bprop (dom s) btnSave disabled = true.

(** ** What a computation does to the state *)

(** [m] never changes what [f] reads of the state. *)
Definition keeps {X A : Type} (f : State -> X) (m : M A) : Prop :=
  forall s, f (fst (m s)) = f s.

(** [m] never throws. *)
Definition total {A : Type} (m : M A) : Prop :=
  forall s, exists x, snd (m s) = inr x.

(** [m] goes from a state where [I] holds to one where it holds. *)
Definition preserves {A : Type} (I : State -> Prop) (m : M A) : Prop :=
  forall s, I s -> I (fst (m s)).

(** What the timeouts are made of. *)
Definition timer_view (s : State) : list (positive * jsnum) * option positive * positive :=
  (timers s, lookupTimer s, next_timer s).

(** The timeout [lookupTimer] names is the only one that is set, and no
    timeout is set when [lookupTimer] is [null]. *)
Definition timer_inv (s : State) : Prop :=
  match lookupTimer s with
  | Some id => exists ms, timers s = [(id, ms)] /\ (id < next_timer s)%positive
  | None => timers s = []
  end.

(** ** Inputs and states to run the page on *)

(** The code of the specification's scenario. *)
Definition isbn : string := "9780132350884".

(** A lookup result with a book, one that has a book and no kind, and the
    answer of the save endpoint. *)
Definition clean_code : jsval :=
  JObj [("kind", JStr "isbn"); ("value", JStr isbn);
        ("book", JObj [("title", JStr "Clean Code");
                       ("authors", JArr [JStr "Robert C. Martin"]);
                       ("sources", JArr [JObj [("provider", JStr "openlibrary")]])])].


Definition saved_7 : jsval := JObj [("saved", JObj [("id", JNum (num_of_Z 7))])].

(** A response with status 200 and the given value as its body, and one
    with status 200 and no body. *)
Definition ok_with (v : jsval) : response :=
  {| res_status := 200; res_text := plain_JSON_stringify v 0; res_json := Some v |}.

Definition ok_empty : response :=
  {| res_status := 200; res_text := EmptyString; res_json := None |}.

(** The answer of the lookup endpoint for a code it does not know. *)
Definition not_found : response :=
  {| res_status := 404;
     res_text := "{" ++ dq ++ "error" ++ dq ++ ":" ++ dq ++ "Not found" ++ dq ++ "}";
     res_json := Some (JObj [("error", JStr "Not found")]) |}.



(** The network is down: what [fetch] rejects with. *)
Definition net_down : exn := {| ename := "TypeError"; emessage := "Failed to fetch" |}.

(** A refresh result with one item, whose title needs escaping. *)
Definition one_item : jsval := JObj [("title", JStr "A<b>")].

Definition one_updated : jsval := JObj [("updated_items", JArr [one_item])].

(** The page with scanner mode checked and a delay of 100: as it starts,
    once the code has been typed (the timeout is set), once the timeout has
    fired (the lookup is sent), and once the book has come back. *)
Definition start : State := init (page true "100") [].
Definition scanned : State := run0 [Input isbn] start.
Definition looking_up : State := run0 [TimerFire 1%positive] scanned.
Definition previewed : State :=
  run0 [Response 1%positive (Responded (ok_with clean_code))] looking_up.

(** The code typed, then scanner mode unchecked before the timeout fires. *)
Definition unchecked : State := run0 [ChangeScannerMode false] scanned.

(** * More of the page *)

(** ** static/js/scan.js: the helper no listener calls *)


(** ** The requests of the page *)

(** The request [doSave] sends for a book. *)
Definition save_request {P : Platform} (book : jsval) : request :=
  {| path := "/api/books"; method := "POST";
     content_type := "application/json";
     body := JSON_stringify (JObj [("book", book)]) 0 |}.

(** The request [refreshAllBooks] sends. *)
Definition refresh_request {P : Platform} (dry : bool) : request :=
  {| path := "/api/books/refresh"; method := "POST";
     content_type := "application/json";
     body := JSON_stringify
               (JObj [("dry_run", JBool dry); ("only_missing", JBool false)]) 0 |}.

(** A POST of JSON to one of the three endpoints. *)
Definition known_request (r : request) : Prop :=
  method r = "POST" /\ content_type r = "application/json"
  /\ (path r = "/api/scan/lookup" \/ path r = "/api/books"
      \/ path r = "/api/books/refresh").

(** The events whose listener calls the API: the lookup button, the save
    button, the refresh button once confirmed, the Enter key, a timeout. *)
Definition calls_api (ev : event) : bool :=
  match ev with
  | ClickLookup | ClickSave | TimerFire _ => true
  | ClickRefreshAll confirmed => confirmed
  | KeyDown key => String.eqb key "Enter"
  | _ => false
  end.

(** [els.chkDryRun?.checked ?? false]. *)
Definition dry_run (s : State) : bool :=
  if has chkDryRun s then bprop (dom s) chkDryRun checked else false.

(** ** Outcomes and pages *)

(** A lookup, a save or a refresh that fails in [apiPost]: [fetch] is
    rejected, or the status is no success. *)
Definition failed (o : outcome) : bool :=
  match o with
  | Rejected _ => true
  | Responded r => negb (res_ok r)
  end.

(** The state an input event leaves when it only changes the code field. *)
Definition typed (v : string) (s : State) : State :=
  set_dom (set_sprop code value v (dom s)) s.

(** Text with none of the five characters [escapeHtml] replaces. *)
Fixpoint plain_text (s : string) : bool :=
  match s with
  | EmptyString => true
  | String c t =>
      negb (Ascii.eqb c c_amp || Ascii.eqb c c_lt || Ascii.eqb c c_gt
            || Ascii.eqb c c_quot || Ascii.eqb c c_apos)
      && plain_text t
  end.



(** A page with no scanner-mode checkbox and no delay input. *)
Definition plain_page : Dom :=
  {| present := fun e =>
       match e with
       | scannerMode | scannerDelay | scannerDelayInput => false
       | _ => true
       end;
     sprop := fun _ _ => EmptyString;
     bprop := fun _ _ => false |}.

(** A page with the scanner-mode checkbox and the delay block, and no
    delay input in it. *)
Definition page_without_delay_input : Dom :=
  {| present := fun e =>
       match e with
       | scannerDelayInput => false
       | _ => true
       end;
     sprop := fun _ _ => EmptyString;
     bprop := fun _ _ => false |}.


(** [s] without its first [n] characters. *)
Fixpoint drop_chars (n : nat) (s : string) : string :=
  match n, s with
  | O, _ => s
  | S n', String _ t => drop_chars n' t
  | S _, EmptyString => EmptyString
  end.

(** The first character a piece of escaped markup stands for, and the rest
    of the markup. *)
Definition decode_head (s : string) : option (ascii * string) :=
  match s with
  | EmptyString => None
  | String c t =>
      if Ascii.eqb c c_amp then
        if starts_with "amp;" t then Some (c_amp, drop_chars 4 t)
        else if starts_with "lt;" t then Some (c_lt, drop_chars 3 t)
        else if starts_with "gt;" t then Some (c_gt, drop_chars 3 t)
        else if starts_with "quot;" t then Some (c_quot, drop_chars 5 t)
        else if starts_with "#039;" t then Some (c_apos, drop_chars 5 t)
        else Some (c, t)
      else Some (c, t)
  end.

(** A refresh result whose list holds [null]. *)
Definition null_item : jsval := JObj [("updated_items", JArr [JNull])].

(** * static/js/cookies.js, in full *)

(** The page above reads [getCookie] and [setCookie] as a lookup and an
    update of pairs. Here they are as the file has them: the text that
    [setCookie] assigns to [document.cookie], and the search [getCookie]
    runs on the text of [document.cookie], with the percent-encoding of the
    value. *)
Module Cookies.

(** [URIError], with the engine's message. *)
Definition URIError (msg : string) : exn := {| ename := "URIError"; emessage := msg |}.

Definition between (lo hi : N) (a : ascii) : bool :=
  N.leb lo (code_of a) && N.leb (code_of a) hi.

(** The characters [encodeURIComponent] leaves as they are: letters,
    digits and [- _ . ! ~ * ' ( )]. *)
Definition unreserved (a : ascii) : bool :=
  between 48 57 a || between 65 90 a || between 97 122 a
  || is_char a 45 || is_char a 95 || is_char a 46 || is_char a 33
  || is_char a 126 || is_char a 42 || is_char a 39 || is_char a 40
  || is_char a 41.

Definition hex_upper (n : N) : ascii :=
  ascii_of_N (if N.ltb n 10 then 48 + n else 55 + n).

(** A byte as [%XX]. *)
Definition percent (a : ascii) : string :=
  String (ascii_of_N 37)
    (String (hex_upper (code_of a / 16))
       (String (hex_upper (code_of a mod 16)) EmptyString)).

(** [encodeURIComponent], on the bytes of the string's UTF-8 encoding. (A
    string with a lone surrogate has no such encoding; the function throws
    on it, and it is not among the strings here.) *)
Fixpoint encodeURIComponent (s : string) : string :=
  match s with
  | EmptyString => EmptyString
  | String a t =>
      (if unreserved a then String a EmptyString else percent a)
      ++ encodeURIComponent t
  end.

(** The first pass of [decodeURIComponent]: every [%XX] becomes its byte,
    marked as escaped; a [%] with no two hexadecimal digits after it is an
    error. *)
Fixpoint percent_decode (s : string) : option (list (bool * ascii)) :=
  match s with
  | EmptyString => Some []
  | String a t =>
      if is_char a 37 then
        match t with
        | String h (String l t') =>
            match digit_val 16 h, digit_val 16 l with
            | Some x, Some y =>
                option_map (cons (true, ascii_of_N (16 * x + y))) (percent_decode t')
            | _, _ => None
            end
        | _ => None
        end
      else option_map (cons (false, a)) (percent_decode t)
  end.

(** The second pass: an escaped byte from 0x80 on must begin a well-formed
    UTF-8 sequence whose other bytes are escaped too. *)
Fixpoint utf8_check (l : list (bool * ascii)) : option (list ascii) :=
  match l with
  | [] => Some []
  | (false, a) :: t => option_map (cons a) (utf8_check t)
  | (true, a) :: t =>
      if N.ltb (code_of a) 128 then option_map (cons a) (utf8_check t)
      else if between 194 223 a then
        match t with
        | (true, b) :: t1 =>
            if between 128 191 b
            then option_map (fun r => a :: b :: r) (utf8_check t1)
            else None
        | _ => None
        end
      else if between 224 239 a then
        match t with
        | (true, b) :: (true, c) :: t2 =>
            if between (if is_char a 224 then 160 else 128)
                 (if is_char a 237 then 159 else 191) b
               && between 128 191 c
            then option_map (fun r => a :: b :: c :: r) (utf8_check t2)
            else None
        | _ => None
        end
      else if between 240 244 a then
        match t with
        | (true, b) :: (true, c) :: (true, d) :: t3 =>
            if between (if is_char a 240 then 144 else 128)
                 (if is_char a 244 then 143 else 191) b
               && between 128 191 c && between 128 191 d
            then option_map (fun r => a :: b :: c :: d :: r) (utf8_check t3)
            else None
        | _ => None
        end
      else None
  end.

Section Engine.

(** The message of the [URIError] the engine throws. *)
Variable malformed : string.

(** [decodeURIComponent]. *)
Definition decodeURIComponent (s : string) : E string :=
  match percent_decode s with
  | Some l =>
      match utf8_check l with
      | Some bytes => inr (string_of_list_ascii bytes)
      | None => inl (URIError malformed)
      end
  | None => inl (URIError malformed)
  end.

(** The group of the expression: the text up to the first semicolon. *)
Fixpoint capture (s : string) : string :=
  match s with
  | EmptyString => EmptyString
  | String a t => if is_char a 59 then EmptyString else String a (capture t)
  end.

(** What the regular expression looks for after the start of the text:
    a semicolon, a space, the name and the equals sign. (The name is
    escaped for the expression, so it stands for itself.) *)
Definition after_separator (name : string) : string := "; " ++ name ++ "=".

Fixpoint scan (name : string) (s : string) : option string :=
  match s with
  | EmptyString => None
  | String a t =>
      if starts_with (after_separator name) s
      then Some (capture (drop_chars (String.length (after_separator name)) s))
      else scan name t
  end.

(** The first match of the expression in the text, and its group: the
    name and the equals sign at the start of the text or after a semicolon
    and a space, then everything up to the next semicolon. *)
Definition find_cookie (name doc : string) : option string :=
  if starts_with (name ++ "=") doc
  then Some (capture (drop_chars (String.length (name ++ "=")) doc))
  else scan name doc.

(** [getCookie(name)], on the text of [document.cookie]. *)
Definition getCookie (name doc : string) : E (option string) :=
  match find_cookie name doc with
  | Some m => ebind (decodeURIComponent m) (fun v => inr (Some v))
  | None => inr None
  end.

End Engine.

(** [setCookie(name, value, days)]: the text it assigns to
    [document.cookie]. The callers leave [days] out, which makes it 180. *)
Definition setCookie (name value : string) (days : Z) : string :=
  name ++ "=" ++ encodeURIComponent value ++ "; path=/; SameSite=Lax"
  ++ (if Z.eqb days 0 then EmptyString
      else "; max-age=" ++ Z_toString (days * 86400)).

(** ** The browser's side *)

(** The text of [document.cookie] for the cookies the browser holds. *)
Definition document_cookie (jar : list (string * string)) : string :=
  join "; " (map (fun kv => fst kv ++ "=" ++ snd kv) jar).

(** The text up to the first equals sign, and the text after it. *)
Fixpoint before_eq (s : string) : string :=
  match s with
  | EmptyString => EmptyString
  | String a t => if is_char a 61 then EmptyString else String a (before_eq t)
  end.

Fixpoint after_eq (s : string) : string :=
  match s with
  | EmptyString => EmptyString
  | String a t => if is_char a 61 then t else after_eq t
  end.

(** The name and the value the browser reads off an assigned text: the
    part before the first semicolon, cut at its first equals sign. *)
Definition pair_of (text : string) : string * string :=
  (before_eq (capture text), after_eq (capture text)).

(** The browser keeps one cookie per name (the cookies of the page all
    have the path [/]): a new value takes the place of the old one, a new
    name goes last. *)
Fixpoint store (k v : string) (jar : list (string * string)) : list (string * string) :=
  match jar with
  | [] => [(k, v)]
  | (k', v') :: t => if String.eqb k' k then (k, v) :: t else (k', v') :: store k v t
  end.

(** Text with no semicolon, and text with neither a semicolon nor an
    equals sign. *)
Fixpoint no_semicolon (s : string) : bool :=
  match s with
  | EmptyString => true
  | String a t => negb (is_char a 59) && no_semicolon t
  end.

Fixpoint token (s : string) : bool :=
  match s with
  | EmptyString => true
  | String a t => negb (is_char a 59) && negb (is_char a 61) && token t
  end.

(** A name the browser keeps as it is: not empty, of visible ASCII
    characters, with neither a semicolon nor an equals sign. *)
Fixpoint visible (s : string) : bool :=
  match s with
  | EmptyString => true
  | String a t => between 33 126 a && visible t
  end.

Definition cookie_name (s : string) : bool := nonempty s && visible s && token s.

(** A cookie as the browser holds it and lists it in [document.cookie]. *)
Definition cookie_ok (kv : string * string) : bool :=
  cookie_name (fst kv) && no_semicolon (snd kv).

(** The browser stores what [setCookie] assigns when it takes the name,
    the name and the value together are no longer than 4096 bytes, and the
    age is not negative (a negative age removes the cookie). *)
Definition kept (name value : string) (days : Z) : bool :=
  cookie_name name
  && Nat.leb (String.length name + String.length (encodeURIComponent value)) 4096
  && Z.leb 0 days.

(** Bytes that are well-formed UTF-8, as [decodeURIComponent] checks the
    bytes it unescapes. *)
Definition well_formed (s : string) : bool :=
  match utf8_check (map (pair true) (list_ascii_of_string s)) with
  | Some _ => true
  | None => false
  end.

(** Text with no percent sign. *)
Fixpoint no_percent (s : string) : bool :=
  match s with
  | EmptyString => true
  | String a t => negb (is_char a 37) && no_percent t
  end.

(** A byte as [encodeURIComponent] leaves it for the first pass of
    [decodeURIComponent]: escaped unless it is one of the characters left
    alone. *)
Definition tag (a : ascii) : bool * ascii := (negb (unreserved a), a).

(** What follows a cookie in the text of [document.cookie]. *)
Definition rest_text (t : list (string * string)) : string :=
  match t with
  | [] => EmptyString
  | _ => "; " ++ document_cookie t
  end.

(** Text that begins with two hexadecimal digits. *)
Definition two_hex (s : string) : bool :=
  match s with
  | String h (String l _) =>
      match digit_val 16 h, digit_val 16 l with
      | Some _, Some _ => true
      | _, _ => false
      end
  | _ => false
  end.

End Cookies.

(** * The settings, on the browser's cookies *)

(** The two listeners that write a cookie and the load listener that reads
    them, with [cookies.js] as above in place of the lookup and update of
    pairs: the cookies of the state are the pairs the browser holds,
    [setCookie] assigns its text to [document.cookie], and [getCookie]
    searches the text of [document.cookie] and can throw. *)
Module Persisted.

Section Listeners.

Context {P : Platform}.

(** The message of the [URIError] the engine throws. *)
Variable malformed : string.

(** [setCookie(name, value)], with [days] left out: the browser stores the
    pair it reads off the assigned text when it keeps it, and ignores the
    assignment otherwise. (The listeners pass the two names above, which
    the browser keeps as they are; what it does not keep is a pair that is
    too long.) *)
Definition setCookie (name value : string) : M unit :=
  modify (fun s =>
    if Cookies.kept name value 180 then
      set_cookies
        (Cookies.store
           (fst (Cookies.pair_of (Cookies.setCookie name value 180)))
           (snd (Cookies.pair_of (Cookies.setCookie name value 180)))
           (cookies s)) s
    else s).

(** [getCookie(name)], on the text the browser gives for its cookies. *)
Definition getCookie (name : string) : M (option string) :=
  fun s =>
    (s, Cookies.getCookie malformed name (Cookies.document_cookie (cookies s))).

(** The listener of [load]. *)
Definition load : M unit :=
  clearUI ;;
  mode <- getCookie COOKIE_SCANNER_MODE ;;
  sm <- gets (has scannerMode) ;;
  match mode with
  | Some m => if sm then setB scannerMode checked (String.eqb m "1") else ret tt
  | None => ret tt
  end ;;
  delay <- getCookie COOKIE_SCANNER_DELAY ;;
  sdi <- gets (has scannerDelayInput) ;;
  match delay with
  | Some d => if nonempty d && sdi then setS scannerDelayInput value d else ret tt
  | None => ret tt
  end ;;
  updateScannerUI.

(** The change of the scanner-mode checkbox to [b], and its listener. *)
Definition scannerMode_change (b : bool) : M unit :=
  there <- gets (has scannerMode) ;;
  if there then
    setB scannerMode checked b ;;
    setCookie COOKIE_SCANNER_MODE (if b then "1" else "0") ;;
    updateScannerUI
  else ret tt.

(** The change of the delay input to [v], and its listener. *)
Definition scannerDelayInput_change (v : string) : M unit :=
  there <- gets (has scannerDelayInput) ;;
  if there then
    setS scannerDelayInput value v ;;
    setCookie COOKIE_SCANNER_DELAY v
  else ret tt.

End Listeners.

(** The state once the load listener has used what it read of the
    [scanner_mode] cookie, and of the [scanner_delay] cookie. *)
Definition mode_restored (mode : option string) (s : State) : State :=
  match mode with
  | Some m =>
      if has scannerMode s
      then set_dom (set_bprop scannerMode checked (String.eqb m "1") (dom s)) s
      else s
  | None => s
  end.

Definition delay_restored (delay : option string) (s : State) : State :=
  match delay with
  | Some d =>
      if nonempty d && has scannerDelayInput s
      then set_dom (set_sprop scannerDelayInput value d (dom s)) s
      else s
  | None => s
  end.

(** A value [decodeURIComponent] takes, and a cookie that is missing or
    has such a value. *)
Definition decodes (m : string) : bool :=
  match Cookies.percent_decode m with
  | Some l =>
      match Cookies.utf8_check l with
      | Some _ => true
      | None => false
      end
  | None => false
  end.

Definition readable (name : string) (jar : list (string * string)) : bool :=
  match cookie_of name jar with
  | Some m => decodes m
  | None => true
  end.

(** A text of [n] digits; as a delay, 5000 of them are more than the
    browser keeps with the name. *)
Fixpoint digits (n : nat) : string :=
  match n with
  | O => EmptyString
  | S k => String "1" (digits k)
  end.

End Persisted.

(** * Proofs *)

(** ** The escaping of markup *)

Lemma app_assoc_string (a b c : string) : (a ++ b) ++ c = a ++ (b ++ c).
Proof. induction a as [|x a IH]; simpl; [reflexivity | now rewrite IH]. Qed.

Lemma replaceAll_app (p : ascii) (r a b : string) :
  replaceAll p r (a ++ b) = replaceAll p r a ++ replaceAll p r b.
Proof.
  induction a as [|c a IH]; simpl.
  - reflexivity.
  - destruct (Ascii.eqb c p); simpl; rewrite IH.
    + now rewrite app_assoc_string.
    + reflexivity.
Qed.

Lemma escape_chain_app (a b : string) :
  escape_chain (a ++ b) = escape_chain a ++ escape_chain b.
Proof. unfold escape_chain. now rewrite !replaceAll_app. Qed.

Lemma escape_chain_char (c : ascii) :
  escape_chain (String c EmptyString) = entity c.
Proof. destruct c as [[] [] [] [] [] [] [] []]; reflexivity. Qed.

Lemma escape_chain_each (s : string) : escape_chain s = escape_each s.
Proof.
  induction s as [|c s IH].
  - reflexivity.
  - change (String c s) with (String c EmptyString ++ s).
    rewrite escape_chain_app, escape_chain_char, IH. reflexivity.
Qed.

Lemma html_safe_entity (c : ascii) (r : string) :
  html_safe (entity c ++ r) = html_safe r.
Proof. destruct c as [[] [] [] [] [] [] [] []]; simpl; reflexivity. Qed.

Lemma html_safe_escape_each (s : string) : html_safe (escape_each s) = true.
Proof.
  induction s as [|c s IH]; simpl.
  - reflexivity.
  - now rewrite html_safe_entity.
Qed.

Section Rendering.

Context {P : Platform}.

Lemma escapeHtml_escape_each (v : jsval) :
  escapeHtml v
  = escape_each (ToString (if nullish v then JStr EmptyString else v)).
Proof. unfold escapeHtml. apply escape_chain_each. Qed.

Lemma report_item_shape (it : jsval) :
  match report_item it with
  | inl _ => True
  | inr html =>
      exists srcs,
        item_srcs it = inr srcs
        /\ html = item_open ++ escapeHtml (JStr (item_title it))
                  ++ item_mid ++ escapeHtml (item_isbn it)
                  ++ item_sep ++ escapeHtml (JStr srcs)
                  ++ item_close
  end.
Proof.
  unfold report_item, get_prop.
  destruct (nullish it); simpl; [exact I|].
  destruct (item_srcs it) as [e|srcs]; simpl; [exact I|].
  exists srcs. split; reflexivity.
Qed.

Lemma renderRefreshReport_innerHTML (result : jsval) (s : State)
    (x : jsval) (xs : list jsval) (htmls : list string) :
  has refreshReport s = true ->
  has refreshList s = true ->
  opt_prop result "updated_items" = JArr (x :: xs) ->
  mapE report_item (x :: xs) = inr htmls ->
  sprop (dom (fst (renderRefreshReport result s))) refreshList innerHTML
  = join EmptyString htmls.
Proof.
  intros Hr Hl Hitems Hmap.
  unfold renderRefreshReport, bind, gets.
  rewrite Hr, Hl, Hitems. cbn [negb orb or_else truthy length_of].
  unfold lift, bind. cbn [setS modify].
  rewrite Hmap. reflexivity.
Qed.

(** C10. [escapeHtml] replaces every [&], [<], [>], double quote and single
    quote of its argument by the entity ([null] and [undefined] give the
    empty string), so what it returns has no raw special character; and the
    markup [renderRefreshReport] builds for an item holds the title, the
    ISBN and the sources only as [escapeHtml] returned them, the list's
    markup being these items' joined. *)
Theorem escapeHtml_report :
  (forall v : jsval,
      escapeHtml v
      = escape_each (ToString (if nullish v then JStr EmptyString else v)))
  /\ escapeHtml JNull = EmptyString
  /\ escapeHtml JUndefined = EmptyString
  /\ (forall v : jsval, html_safe (escapeHtml v) = true)
  /\ (forall it : jsval,
         match report_item it with
         | inl _ => True
         | inr html =>
             exists srcs,
               item_srcs it = inr srcs
               /\ html = item_open ++ escapeHtml (JStr (item_title it))
                         ++ item_mid ++ escapeHtml (item_isbn it)
                         ++ item_sep ++ escapeHtml (JStr srcs)
                         ++ item_close
         end)
  /\ (forall (result : jsval) (s : State) (x : jsval) (xs : list jsval)
             (htmls : list string),
         has refreshReport s = true ->
         has refreshList s = true ->
         opt_prop result "updated_items" = JArr (x :: xs) ->
         mapE report_item (x :: xs) = inr htmls ->
         sprop (dom (fst (renderRefreshReport result s))) refreshList innerHTML
         = join EmptyString htmls).
Proof.
  repeat split.
  - apply escapeHtml_escape_each.
  - intro v. rewrite escapeHtml_escape_each. apply html_safe_escape_each.
  - apply report_item_shape.
  - apply renderRefreshReport_innerHTML.
Qed.

End Rendering.

(** ** The delay of the debounce *)

Lemma clamp_in_range (n : jsnum) :
  is_NaN n = false ->
  in_range (Math_max (num_of_Z 50) (Math_min (num_of_Z 2000) n)).
Proof.
  destruct n as [| | |q]; intro Hn; try discriminate.
  - simpl. split; unfold Qle; simpl; lia.
  - simpl. split; unfold Qle; simpl; lia.
  - unfold num_of_Z. cbn [Math_min].
    destruct (Qle_bool (inject_Z 2000) q) eqn:Hhi.
    + simpl. split; unfold Qle; simpl; lia.
    + cbn [Math_max]. destruct (Qle_bool (inject_Z 50) q) eqn:Hlo.
      * split.
        -- now apply Qle_bool_iff.
        -- apply Qlt_le_weak, Qnot_le_lt. intro H.
           apply Qle_bool_iff in H. congruence.
      * split; unfold Qle; simpl; lia.
Qed.

Lemma clamp_NaN : Math_max (num_of_Z 50) (Math_min (num_of_Z 2000) NaN) = NaN.
Proof. reflexivity. Qed.

(** The delay on the values the clamp handles. The delay [scheduleLookup]
    computes lies between 50 and 2000 milliseconds for every value of the
    delay input that [Number] reads as a number, and is 250 when the input
    is empty or missing; for a value that is not a number it is NaN. The
    timeout [scheduleLookup] sets has this delay. *)
Theorem delay_ms_clamped :
  (forall input : option string,
      if numeric input then in_range (delay_ms input)
      else delay_ms input = NaN)
  /\ delay_ms (Some EmptyString) = num_of_Z 250
  /\ delay_ms None = num_of_Z 250
  /\ (forall s : State,
         scanner_on s = true ->
         find_key (next_timer s) (timers (fst (scheduleLookup s)))
         = Some (delay_ms (delay_input s))).
Proof.
  split; [|split; [|split]].
  - intros [v|]; unfold numeric, delay_ms.
    + destruct (nonempty v).
      * destruct (StringToNumber v) eqn:Hv; simpl negb; cbv iota;
          try (apply clamp_in_range; reflexivity).
        apply clamp_NaN.
      * apply clamp_in_range. reflexivity.
    + apply clamp_in_range. reflexivity.
  - reflexivity.
  - reflexivity.
  - intros s Hon.
    unfold scheduleLookup, bind, gets. rewrite Hon. cbn [negb].
    destruct (lookupTimer s) as [id|]; simpl; now rewrite Pos.eqb_refl.
Qed.

(** C7, where the code departs from it. The line that computes the delay
    clamps with [Math.max] and [Math.min], which give NaN for NaN: with a
    text in the delay input that [Number] does not read as a number, the
    delay is NaN, no delay between 50 and 2000, and the timeout is set with
    it. Such a text is in the input, when the element takes any text,
    once the user has typed it there or the load listener has assigned it
    from the [scanner_delay] cookie. For the values [Number] reads as
    numbers the delay is in the interval. *)
Theorem delay_ms_of_text :
  StringToNumber "abc" = NaN
  /\ delay_ms (Some "abc") = NaN
  /\ ~ in_range (delay_ms (Some "abc"))
  /\ (forall v : string,
         nonempty v = true -> StringToNumber v = NaN ->
         delay_ms (Some v) = NaN /\ ~ in_range (delay_ms (Some v)))
  /\ (forall s : State,
         scanner_on s = true -> delay_input s = Some "abc" ->
         find_key (next_timer s) (timers (fst (scheduleLookup s))) = Some NaN)
  /\ timers (run0 [EditScannerDelay "abc"; Input isbn] start)
     = [(1%positive, NaN)]
  /\ delay_input (step0 Load (init (page true "100") [(COOKIE_SCANNER_DELAY, "abc")]))
     = Some "abc"
  /\ timers (run0 [EditScannerDelay "300"; Input isbn] start)
     = [(1%positive, num_of_Z 300)]
  /\ (forall input : option string,
         numeric input = true -> in_range (delay_ms input)).
Proof.
  split; [reflexivity|]. split; [reflexivity|]. split; [intros []|].
  split.
  { intros v Hv Hn. unfold delay_ms. rewrite Hv, Hn. split; [reflexivity|intros []]. }
  split.
  { intros s Hon Hin.
    unfold scheduleLookup, bind, gets. rewrite Hon. cbn [negb]. cbv beta iota zeta.
    rewrite Hin.
    destruct (lookupTimer s) as [id|]; simpl; now rewrite Pos.eqb_refl. }
  split; [reflexivity|]. split; [reflexivity|]. split; [reflexivity|].
  intros [v|]; unfold numeric, delay_ms.
  - destruct (nonempty v).
    + destruct (StringToNumber v) eqn:Hv; simpl negb; intro H;
        first [discriminate H | apply clamp_in_range; reflexivity].
    + intros _. apply clamp_in_range. reflexivity.
  - intros _. apply clamp_in_range. reflexivity.
Qed.

Lemma delay_ms_clamped_witness :
  scanner_on (init (page true "100") []) = true
  /\ find_key 1%positive
       (timers (fst (scheduleLookup (init (page true "100") []))))
     = Some (delay_ms (Some "100")).
Proof.
  split; [reflexivity|].
  exact (proj2 (proj2 (proj2 delay_ms_clamped))
           (init (page true "100") []) eq_refl).
Defined.

(** ** The request client *)

Section Client.

Context {P : Platform}.




(** C4. An empty body is read as [null]: [apiPost] returns [null] for a
    success, and for another status throws the [HTTP] error, not an error
    of the parser. A body that is not empty and does not parse is read as
    the object with the message [Non-JSON response] and the raw text, which
    [apiPost] returns for a success; for another status that message is
    the error's. *)
Theorem apiPost_body (st : Z) :
  (forall j : option jsval,
      let r := {| res_status := st; res_text := EmptyString; res_json := j |} in
      apiPost_data r = JNull
      /\ apiPost_return (Responded r)
         = if res_ok r then inr JNull
           else inl (Error ("HTTP " ++ Number_toString (num_of_Z st))))
  /\ (forall (a : ascii) (t : string),
         let r := {| res_status := st; res_text := String a t; res_json := None |} in
         let synthetic :=
           JObj [("error", JStr "Non-JSON response"); ("raw", JStr (String a t))] in
         apiPost_data r = synthetic
         /\ apiPost_return (Responded r)
            = if res_ok r then inr synthetic
              else inl (Error "Non-JSON response")).
Proof.
  split.
  - intros j r. split; [reflexivity|].
    unfold apiPost_return. destruct (res_ok r); reflexivity.
  - intros a t r synthetic. split; [reflexivity|].
    unfold apiPost_return. destruct (res_ok r); reflexivity.
Qed.

End Client.



(** ** What a computation leaves as it was *)

Section Keeps.

Context {X : Type} (f : State -> X).

Lemma keeps_ret {A} (x : A) : keeps f (ret x).
Proof. intro s. reflexivity. Qed.

Lemma keeps_lift {A} (c : E A) : keeps f (lift c).
Proof. intro s. reflexivity. Qed.

Lemma keeps_gets {A} (g : State -> A) : keeps f (gets g).
Proof. intro s. reflexivity. Qed.

Lemma keeps_modify (g : State -> State) :
  (forall s, f (g s) = f s) -> keeps f (modify g).
Proof. intros H s. apply H. Qed.

Lemma keeps_bind {A B} (m : M A) (k : A -> M B) :
  keeps f m -> (forall x, keeps f (k x)) -> keeps f (bind m k).
Proof.
  intros Hm Hk s. unfold bind. specialize (Hm s).
  destruct (m s) as [s' [e|x]]; simpl in *.
  - exact Hm.
  - now rewrite Hk.
Qed.

Lemma keeps_try {A} (m : M A) (h : exn -> M A) :
  keeps f m -> (forall e, keeps f (h e)) -> keeps f (try_catch m h).
Proof.
  intros Hm Hh s. unfold try_catch. specialize (Hm s).
  destruct (m s) as [s' [e|x]]; simpl in *.
  - now rewrite Hh.
  - exact Hm.
Qed.

Lemma keeps_async (m : M unit) : keeps f m -> keeps f (async_call m).
Proof. intros Hm s. apply Hm. Qed.

End Keeps.

Lemma total_ret {A} (x : A) : total (ret x).
Proof. intro s. now exists x. Qed.

Lemma total_gets {A} (g : State -> A) : total (gets g).
Proof. intro s. now exists (g s). Qed.

Lemma total_modify (g : State -> State) : total (modify g).
Proof. intro s. now exists tt. Qed.

Lemma total_bind {A B} (m : M A) (k : A -> M B) :
  total m -> (forall x, total (k x)) -> total (bind m k).
Proof.
  intros Hm Hk s. unfold bind. destruct (Hm s) as [x Hx].
  destruct (m s) as [s' r]. simpl in Hx. subst r. apply Hk.
Qed.

Lemma total_try {A} (m : M A) (h : exn -> M A) :
  (forall e, total (h e)) -> total (try_catch m h).
Proof.
  intros Hh s. unfold try_catch.
  destruct (m s) as [s' [e|x]].
  - apply Hh.
  - now exists x.
Qed.

Lemma total_unit (m : M unit) : total m -> forall s, snd (m s) = inr tt.
Proof. intros H s. destruct (H s) as [[] Hx]. exact Hx. Qed.

(** Takes a goal [keeps f m] or [total m] apart along the shape of [m]. *)
Ltac monadic :=
  repeat
    match goal with
    | |- keeps _ (ret _) => apply keeps_ret
    | |- keeps _ (lift _) => apply keeps_lift
    | |- keeps _ (gets _) => apply keeps_gets
    | |- keeps _ (async_call _) => apply keeps_async
    | |- keeps _ (bind _ _) => apply keeps_bind; [|intro]
    | |- keeps _ (try_catch _ _) => apply keeps_try; [|intro]
    | |- keeps _ (if ?b then _ else _) => destruct b
    | |- keeps _ (match ?x with _ => _ end) => destruct x
    | |- total (ret _) => apply total_ret
    | |- total (gets _) => apply total_gets
    | |- total (modify _) => apply total_modify
    | |- total (bind _ _) => apply total_bind; [|intro]
    | |- total (try_catch _ _) => apply total_try; intro
    | |- total (if ?b then _ else _) => destruct b
    | |- total (match ?x with _ => _ end) => destruct x
    end.

(** What the rendering leaves as it was: anything that reads neither the
    elements nor [lastLookup]. *)
Section Frame.

Context {P : Platform} {X : Type} (f : State -> X).

Hypothesis f_dom : forall d s, f (set_dom d s) = f s.
Hypothesis f_lastLookup : forall v s, f (set_lastLookup v s) = f s.

Lemma keeps_setS e a v : keeps f (setS e a v).
Proof. apply keeps_modify. intro s. apply f_dom. Qed.

Lemma keeps_setB e b v : keeps f (setB e b v).
Proof. apply keeps_modify. intro s. apply f_dom. Qed.

Lemma keeps_showStatus msg isError : keeps f (showStatus msg isError).
Proof. unfold showStatus. monadic; apply keeps_setS. Qed.

Lemma keeps_clearUI : keeps f clearUI.
Proof.
  unfold clearUI. monadic;
    first [apply keeps_setS | apply keeps_setB
          | apply keeps_modify; intro; apply f_lastLookup].
Qed.

Lemma keeps_renderLookup result : keeps f (renderLookup result).
Proof.
  unfold renderLookup. cbv zeta. monadic;
    first [apply keeps_setS | apply keeps_setB | apply keeps_showStatus
          | apply keeps_modify; intro; apply f_lastLookup].
Qed.

Lemma keeps_renderRefreshReport result : keeps f (renderRefreshReport result).
Proof.
  unfold renderRefreshReport. cbv zeta. monadic; apply keeps_setS.
Qed.

Lemma keeps_updateScannerUI : keeps f updateScannerUI.
Proof. unfold updateScannerUI. monadic; apply keeps_setB. Qed.

Lemma keeps_doLookup_resume o : keeps f (doLookup_resume o).
Proof.
  unfold doLookup_resume, doLookup_try. monadic;
    first [apply keeps_renderLookup | apply keeps_showStatus | apply keeps_setS].
Qed.

Lemma keeps_doSave_resume o : keeps f (doSave_resume o).
Proof.
  unfold doSave_resume, doSave_try. monadic;
    first [apply keeps_showStatus | apply keeps_setS | apply keeps_setB].
Qed.

Lemma keeps_refreshAllBooks_resume o : keeps f (refreshAllBooks_resume o).
Proof.
  unfold refreshAllBooks_resume, refreshAllBooks_try. monadic;
    first [apply keeps_renderRefreshReport | apply keeps_showStatus
          | apply keeps_setS].
Qed.

Lemma keeps_resume who o : keeps f (resume who o).
Proof.
  destruct who; simpl.
  - apply keeps_doLookup_resume.
  - apply keeps_doSave_resume.
  - apply keeps_refreshAllBooks_resume.
Qed.

End Frame.

(** What the sending of a request leaves as it was, too: anything that
    reads neither the requests, nor who waits, nor the cookies. *)
Section FrameRequests.

Context {P : Platform} {X : Type} (f : State -> X).

Hypothesis f_dom : forall d s, f (set_dom d s) = f s.
Hypothesis f_lastLookup : forall v s, f (set_lastLookup v s) = f s.
Hypothesis f_sent : forall l s, f (set_sent l s) = f s.
Hypothesis f_awaiting : forall l s, f (set_awaiting l s) = f s.
Hypothesis f_cookies : forall l s, f (set_cookies l s) = f s.

Lemma keeps_apiPost_send who p payload : keeps f (apiPost_send who p payload).
Proof.
  apply keeps_modify. intro s. now rewrite f_awaiting, f_sent.
Qed.

Lemma keeps_doLookup : keeps f doLookup.
Proof.
  unfold doLookup. cbv zeta. monadic;
    first [apply keeps_clearUI | apply keeps_showStatus
          | apply keeps_apiPost_send]; assumption.
Qed.

Lemma keeps_doSave : keeps f doSave.
Proof.
  unfold doSave. monadic;
    first [apply keeps_showStatus | apply keeps_apiPost_send]; assumption.
Qed.

Lemma keeps_refreshAllBooks c : keeps f (refreshAllBooks c).
Proof.
  unfold refreshAllBooks. monadic;
    first [apply keeps_showStatus | apply keeps_apiPost_send]; assumption.
Qed.

Lemma keeps_setCookie name v : keeps f (setCookie name v).
Proof. apply keeps_modify. intro s. apply f_cookies. Qed.

End FrameRequests.

(** ** The workflow: requests and errors *)

Section Workflow.

Context {P : Platform}.

Lemma total_setS e a v : total (setS e a v).
Proof. apply total_modify. Qed.

Lemma total_setB e b v : total (setB e b v).
Proof. apply total_modify. Qed.

Lemma total_showStatus msg isError : total (showStatus msg isError).
Proof. unfold showStatus. monadic; apply total_setS. Qed.

Lemma total_clearUI : total clearUI.
Proof.
  unfold clearUI. monadic;
    first [apply total_setS | apply total_setB | apply total_modify].
Qed.

Lemma total_apiPost_send who p payload : total (apiPost_send who p payload).
Proof. apply total_modify. Qed.

Lemma total_doLookup : total doLookup.
Proof.
  unfold doLookup. cbv zeta. monadic;
    first [apply total_clearUI | apply total_showStatus | apply total_apiPost_send].
Qed.

Lemma total_doSave : total doSave.
Proof.
  unfold doSave. monadic;
    first [apply total_showStatus | apply total_apiPost_send].
Qed.

Lemma total_refreshAllBooks c : total (refreshAllBooks c).
Proof.
  unfold refreshAllBooks. monadic;
    first [apply total_showStatus | apply total_apiPost_send].
Qed.

Lemma total_doLookup_resume o : total (doLookup_resume o).
Proof.
  unfold doLookup_resume. monadic;
    first [apply total_showStatus | apply total_setS].
Qed.

Lemma total_doSave_resume o : total (doSave_resume o).
Proof. unfold doSave_resume. monadic; apply total_showStatus. Qed.

Lemma total_refreshAllBooks_resume o : total (refreshAllBooks_resume o).
Proof. unfold refreshAllBooks_resume. monadic; apply total_showStatus. Qed.

Lemma showStatus_shows (msg : string) (s : State) :
  shows_error (fst (showStatus msg true s)) msg.
Proof. repeat split. Qed.

Lemma caught_shows {A} (m : M A) (h : exn -> M A) (fallback : string)
    (s s1 : State) (e : exn) :
  m s = (s1, inl e) ->
  shows_error (fst (h e s1)) (message_or e fallback) ->
  shows_error (fst (try_catch m h s)) (message_or e fallback).
Proof. intros Hm Hh. unfold try_catch. now rewrite Hm. Qed.

(** C9. [doLookup], [doSave] and [refreshAllBooks] never throw, neither
    up to the request nor when the response arrives; and whatever their
    [try] block throws on a response (the rejection of [fetch], the error
    of [apiPost] for a status that is no success, an exception of the
    rendering), the status line shows its message, or the handler's own
    text when the message is empty, as an error. *)
Theorem handlers_catch_errors (s : State) (o : outcome) :
  snd (doLookup s) = inr tt
  /\ snd (doLookup_resume o s) = inr tt
  /\ snd (doSave s) = inr tt
  /\ snd (doSave_resume o s) = inr tt
  /\ (forall c : bool, snd (refreshAllBooks c s) = inr tt)
  /\ snd (refreshAllBooks_resume o s) = inr tt
  /\ (forall (e : exn) (s1 : State),
         doLookup_try o s = (s1, inl e) ->
         shows_error (fst (doLookup_resume o s)) (message_or e "Lookup failed"))
  /\ (forall (e : exn) (s1 : State),
         doSave_try o s = (s1, inl e) ->
         shows_error (fst (doSave_resume o s)) (message_or e "Save failed"))
  /\ (forall (e : exn) (s1 : State),
         refreshAllBooks_try o s = (s1, inl e) ->
         shows_error (fst (refreshAllBooks_resume o s))
           (message_or e "Refresh failed"))
  /\ (forall e : exn,
         doLookup_try (Rejected e) s = (s, inl e)
         /\ doSave_try (Rejected e) s = (s, inl e)
         /\ refreshAllBooks_try (Rejected e) s = (s, inl e))
  /\ (forall r : response,
         res_ok r = false ->
         exists e : exn,
           apiPost_return (Responded r) = inl e
           /\ doLookup_try (Responded r) s = (s, inl e)
           /\ doSave_try (Responded r) s = (s, inl e)
           /\ refreshAllBooks_try (Responded r) s = (s, inl e)).
Proof.
  repeat match goal with |- _ /\ _ => split end.
  - apply total_unit, total_doLookup.
  - apply total_unit, total_doLookup_resume.
  - apply total_unit, total_doSave.
  - apply total_unit, total_doSave_resume.
  - intro c. apply total_unit, total_refreshAllBooks.
  - apply total_unit, total_refreshAllBooks_resume.
  - intros e s1 H. unfold doLookup_resume.
    eapply caught_shows; [exact H|]. repeat split.
  - intros e s1 H. unfold doSave_resume.
    eapply caught_shows; [exact H|]. repeat split.
  - intros e s1 H. unfold refreshAllBooks_resume.
    eapply caught_shows; [exact H|]. repeat split.
  - intro e. repeat split.
  - intros r Hok.
    unfold doLookup_try, doSave_try, refreshAllBooks_try, bind, lift,
      apiPost_return.
    rewrite Hok. cbn [negb]. eexists. repeat split.
Qed.

Lemma doLookup_sent (s : State) :
  sent (fst (doLookup s))
  = if nonempty (trim (sprop (dom s) code value))
    then lookup_request (trim (sprop (dom s) code value)) :: sent s
    else sent s.
Proof.
  unfold doLookup, bind, gets. cbv zeta.
  destruct (nonempty (trim (sprop (dom s) code value))); reflexivity.
Qed.

Lemma cancelLookupTimer_dom_sent (s : State) :
  dom (fst (cancelLookupTimer s)) = dom s
  /\ sent (fst (cancelLookupTimer s)) = sent s.
Proof.
  unfold cancelLookupTimer, bind, gets.
  destruct (lookupTimer s); split; reflexivity.
Qed.

(** C8. With a code that is not empty once trimmed, a call of [doLookup]
    sends one request, a POST of the trimmed code to the lookup endpoint,
    and the rest of the handler sends none; with a code that is empty once
    trimmed it sends nothing and leaves the state as it is. The lookup
    button, the Enter key and the timeout each call it once. *)
Theorem doLookup_one_request (s : State) :
  let c := trim (sprop (dom s) code value) in
  (if nonempty c
   then sent (fst (doLookup s)) = lookup_request c :: sent s
        /\ snd (doLookup s) = inr tt
   else doLookup s = (s, inr tt))
  /\ (forall o : outcome, sent (fst (doLookup_resume o s)) = sent s)
  /\ sent (step ClickLookup s) = sent (fst (doLookup s))
  /\ sent (step (KeyDown "Enter") s) = sent (fst (doLookup s))
  /\ (forall (id : positive) (ms : jsnum),
         find_key id (timers s) = Some ms ->
         sent (step (TimerFire id) s) = sent (fst (doLookup s))).
Proof.
  intro c. split; [|split; [|split; [|split]]].
  - destruct (nonempty c) eqn:Hc.
    + split.
      * rewrite doLookup_sent. fold c. now rewrite Hc.
      * apply total_unit, total_doLookup.
    + unfold doLookup, bind, gets. cbv zeta. fold c. now rewrite Hc.
  - intro o. apply (keeps_doLookup_resume sent); reflexivity.
  - reflexivity.
  - unfold step, handle. cbn [String.eqb Ascii.eqb Bool.eqb]. unfold bind at 1.
    destruct (cancelLookupTimer s) as [s1 [e|[]]] eqn:Hs1.
    + exfalso. unfold cancelLookupTimer, bind, gets in Hs1.
      destruct (lookupTimer s); discriminate.
    + cbn [async_call fst]. rewrite !doLookup_sent.
      destruct (cancelLookupTimer_dom_sent s) as [Hd Hs].
      rewrite Hs1 in Hd, Hs. simpl in Hd, Hs. now rewrite Hd, Hs.
  - intros id ms Hid. unfold step, handle, bind, gets. rewrite Hid.
    cbn [clearTimeout modify async_call fst]. now rewrite !doLookup_sent.
Qed.

End Workflow.

(** ** The debounce timer *)

Lemma preserves_bind {A B} (I : State -> Prop) (m : M A) (k : A -> M B) :
  preserves I m -> (forall x, preserves I (k x)) -> preserves I (bind m k).
Proof.
  intros Hm Hk s Hs. unfold bind. specialize (Hm s Hs).
  destruct (m s) as [s' [e|x]]; simpl in *.
  - exact Hm.
  - now apply Hk.
Qed.

Lemma timer_inv_view (s s' : State) :
  timer_view s' = timer_view s -> timer_inv s -> timer_inv s'.
Proof.
  unfold timer_view, timer_inv. intros H. injection H as Ht Hl Hn.
  now rewrite Ht, Hl, Hn.
Qed.

Lemma keeps_preserves {A} (m : M A) :
  keeps timer_view m -> preserves timer_inv m.
Proof. intros Hk s Hs. eapply timer_inv_view; [apply Hk | exact Hs]. Qed.

Lemma scheduleLookup_off (s : State) :
  scanner_on s = false -> scheduleLookup s = (s, inr tt).
Proof. intro H. unfold scheduleLookup, bind, gets. now rewrite H. Qed.

Lemma scheduleLookup_on (s : State) :
  scanner_on s = true -> timer_inv s ->
  timers (fst (scheduleLookup s)) = [(next_timer s, delay_ms (delay_input s))]
  /\ lookupTimer (fst (scheduleLookup s)) = Some (next_timer s)
  /\ next_timer (fst (scheduleLookup s)) = Pos.succ (next_timer s)
  /\ dom (fst (scheduleLookup s)) = dom s.
Proof.
  intros Hon Hinv. unfold scheduleLookup, bind, gets. rewrite Hon. cbn [negb].
  unfold timer_inv in Hinv.
  destruct (lookupTimer s) as [id|].
  - destruct Hinv as [ms [Ht _]]. simpl. rewrite Ht. simpl.
    rewrite Pos.eqb_refl. simpl. repeat split.
  - simpl. rewrite Hinv. repeat split.
Qed.

Lemma preserves_scheduleLookup : preserves timer_inv scheduleLookup.
Proof.
  intros s Hs. destruct (scanner_on s) eqn:Hon.
  - destruct (scheduleLookup_on s Hon Hs) as [Ht [Hl [Hn _]]].
    unfold timer_inv. rewrite Hl, Ht, Hn. eexists. split; [reflexivity|].
    apply Pos.lt_succ_diag_r.
  - now rewrite scheduleLookup_off.
Qed.

Lemma cancelLookupTimer_clears (s : State) :
  timer_inv s ->
  timers (fst (cancelLookupTimer s)) = []
  /\ lookupTimer (fst (cancelLookupTimer s)) = None.
Proof.
  intro Hinv. unfold cancelLookupTimer, bind, gets. unfold timer_inv in Hinv.
  destruct (lookupTimer s) as [id|] eqn:Hl.
  - destruct Hinv as [ms [Ht _]]. simpl. rewrite Ht. simpl.
    rewrite Pos.eqb_refl. split; reflexivity.
  - simpl. now rewrite Hl.
Qed.

Lemma preserves_cancelLookupTimer : preserves timer_inv cancelLookupTimer.
Proof.
  intros s Hs. destruct (cancelLookupTimer_clears s Hs) as [Ht Hl].
  unfold timer_inv. now rewrite Hl.
Qed.

Lemma fired_timer_is_the_one (s : State) (id : positive) (ms : jsnum) :
  timer_inv s -> find_key id (timers s) = Some ms ->
  drop_key id (timers s) = [].
Proof.
  unfold timer_inv. intros Hinv Hf.
  destruct (lookupTimer s) as [id0|].
  - destruct Hinv as [ms0 [Ht _]]. rewrite Ht in *. simpl in *.
    destruct (Pos.eqb id0 id); [reflexivity | discriminate].
  - rewrite Hinv in Hf. discriminate.
Qed.

Section Timers.

Context {P : Platform}.

(** Leaves of a goal [keeps timer_view m]. *)
Ltac timer_leaf :=
  match goal with
  | |- keeps _ (setS _ _ _) => apply keeps_setS
  | |- keeps _ (setB _ _ _) => apply keeps_setB
  | |- keeps _ clearUI => apply keeps_clearUI
  | |- keeps _ updateScannerUI => apply keeps_updateScannerUI
  | |- keeps _ doLookup => apply keeps_doLookup
  | |- keeps _ doSave => apply keeps_doSave
  | |- keeps _ (refreshAllBooks _) => apply keeps_refreshAllBooks
  | |- keeps _ (resume _ _) => apply keeps_resume
  | |- keeps _ (setCookie _ _) => apply keeps_setCookie
  | |- keeps _ (modify _) => apply keeps_modify
  end; intros; reflexivity.

Lemma preserves_handle (ev : event) : preserves timer_inv (handle ev).
Proof.
  destruct ev; unfold handle, getCookie;
    try (apply keeps_preserves; monadic; timer_leaf).
  - (* ClickClear *)
    apply preserves_bind; [|intro; apply preserves_bind; [|intro]].
    + apply keeps_preserves, keeps_clearUI; intros; reflexivity.
    + apply keeps_preserves, keeps_setS; intros; reflexivity.
    + apply preserves_cancelLookupTimer.
  - (* KeyDown *)
    destruct (String.eqb key "Enter").
    + apply preserves_bind; [apply preserves_cancelLookupTimer|intro].
      apply keeps_preserves, keeps_async, keeps_doLookup; intros; reflexivity.
    + apply keeps_preserves, keeps_ret.
  - (* Input *)
    apply preserves_bind; [|intro; apply preserves_scheduleLookup].
    apply keeps_preserves, keeps_setS; intros; reflexivity.
  - (* TimerFire *)
    intros s Hs. unfold bind at 1. unfold gets.
    destruct (find_key id (timers s)) as [ms|] eqn:Hf; [|exact Hs].
    unfold bind, clearTimeout, modify, async_call. cbn [fst].
    eapply timer_inv_view.
    + apply (keeps_doLookup timer_view); intros; reflexivity.
    + unfold timer_inv. cbn [lookupTimer set_lookupTimer timers set_timers].
      eapply fired_timer_is_the_one; eassumption.
Qed.

Lemma init_timer_inv (d : Dom) (ck : list (string * string)) :
  timer_inv (init d ck).
Proof. reflexivity. Qed.

Lemma run_app (evs evs' : list event) (s : State) :
  run (evs ++ evs') s = run evs' (run evs s).
Proof. unfold run. apply fold_left_app. Qed.

Lemma run_timer_inv (evs : list event) (s : State) :
  timer_inv s -> timer_inv (run evs s).
Proof.
  revert s. induction evs as [|ev evs IH]; intros s Hs.
  - exact Hs.
  - simpl. apply IH. now apply preserves_handle.
Qed.

Lemma timer_inv_at_most_one (s : State) :
  timer_inv s -> (List.length (timers s) <= 1)%nat.
Proof.
  unfold timer_inv. destruct (lookupTimer s).
  - intros [ms [Ht _]]. rewrite Ht. simpl. lia.
  - intros Ht. rewrite Ht. simpl. lia.
Qed.

Lemma timer_inv_fresh (s : State) (id : positive) (ms : jsnum) :
  timer_inv s -> In (id, ms) (timers s) -> id <> next_timer s.
Proof.
  unfold timer_inv. destruct (lookupTimer s) as [id0|].
  - intros [ms0 [Ht Hlt]] Hin. rewrite Ht in Hin.
    destruct Hin as [Heq|[]]. injection Heq as -> _. lia.
  - intros Ht Hin. rewrite Ht in Hin. destruct Hin.
Qed.

Lemma step_Input (s : State) (v : string) :
  scanner_on s = true -> timer_inv s ->
  timers (step (Input v) s) = [(next_timer s, delay_ms (delay_input s))]
  /\ lookupTimer (step (Input v) s) = Some (next_timer s)
  /\ scanner_on (step (Input v) s) = true.
Proof.
  intros Hon Hinv. unfold step, handle, bind. cbn [setS modify].
  set (s1 := set_dom (set_sprop code value v (dom s)) s).
  assert (Hon1 : scanner_on s1 = true) by exact Hon.
  assert (Hinv1 : timer_inv s1) by exact Hinv.
  destruct (scheduleLookup_on s1 Hon1 Hinv1) as [Ht [Hl [_ Hd]]].
  repeat split.
  - exact Ht.
  - exact Hl.
  - unfold scanner_on, has in *. rewrite Hd. exact Hon1.
Qed.

Lemma run_Inputs_scanner_on (vs : list string) (s : State) :
  scanner_on s = true -> timer_inv s ->
  scanner_on (run (map Input vs) s) = true.
Proof.
  revert s. induction vs as [|v vs IH]; intros s Hon Hinv.
  - exact Hon.
  - simpl. apply IH.
    + now apply step_Input.
    + now apply preserves_handle.
Qed.

(** C6, as the code has it. In every state the page reaches, at most one
    timeout is set. While scanner mode is checked, an input event removes
    the timeout that was set and sets a new one, under a new id: after any
    run of input events the only timeout is the one the last event set. *)
Theorem one_pending_timer (d : Dom) (ck : list (string * string))
    (evs : list event) :
  let s := run evs (init d ck) in
  (List.length (timers s) <= 1)%nat
  /\ (scanner_on s = true ->
      forall v : string,
        timers (step (Input v) s) = [(next_timer s, delay_ms (delay_input s))]
        /\ lookupTimer (step (Input v) s) = Some (next_timer s)
        /\ (forall id ms, In (id, ms) (timers s) -> id <> next_timer s))
  /\ (scanner_on s = true ->
      forall (vs : list string) (v : string),
        let s' := run (map Input vs) s in
        timers (step (Input v) s') = [(next_timer s', delay_ms (delay_input s'))]).
Proof.
  intro s.
  assert (Hinv : timer_inv s) by apply run_timer_inv, init_timer_inv.
  split; [|split].
  - now apply timer_inv_at_most_one.
  - intros Hon v. destruct (step_Input s v Hon Hinv) as [Ht [Hl _]].
    repeat split; try assumption.
    intros id ms. now apply timer_inv_fresh.
  - intros Hon vs v s'.
    apply step_Input.
    + now apply run_Inputs_scanner_on.
    + now apply run_timer_inv.
Qed.

End Timers.

(** ** The save button *)

Section Save.

Context {P : Platform}.





End Save.

(** ** The claims on runs of the page *)



Lemma one_pending_timer_witness :
  scanner_on (run0 [Input "9"] start) = true
  /\ timers (step0 (Input "97") (run0 [Input "9"] start))
     = [(2%positive, delay_ms (Some "100"))].
Proof.
  split; [reflexivity|].
  exact (proj1 (proj1 (proj2 (@one_pending_timer chrome (page true "100") []
                                [Input "9"])) eq_refl "97")).
Defined.

(** With scanner mode unchecked while a timeout is set, an input event
    neither removes the timeout nor sets another. *)
Lemma input_with_scanner_unchecked :
  timers unchecked = [(1%positive, delay_ms (Some "100"))]
  /\ scanner_on unchecked = false
  /\ timers (step0 (Input "97") unchecked) = [(1%positive, delay_ms (Some "100"))]
  /\ lookupTimer (step0 (Input "97") unchecked) = Some 1%positive
  /\ next_timer (step0 (Input "97") unchecked) = next_timer unchecked.
Proof. repeat split. Qed.

(** C1, where the code departs from it. A click on the lookup button
    leaves the timeouts and [lookupTimer] as they are, in every state. So
    with the code typed and the timeout set, the click sends the lookup and
    the timeout, when it fires, sends it again; the Enter key removes the
    timeout first, and one lookup is sent. *)
Theorem lookup_click_keeps_timer :
  (forall (P : Platform) (s : State),
      timer_view (step ClickLookup s) = timer_view s)
  /\ timers scanned = [(1%positive, delay_ms (Some "100"))]
  /\ timers (step0 ClickLookup scanned) = [(1%positive, delay_ms (Some "100"))]
  /\ sent (run0 [ClickLookup; TimerFire 1%positive] scanned)
     = [@lookup_request chrome isbn; @lookup_request chrome isbn]
  /\ timers (step0 (KeyDown "Enter") scanned) = []
  /\ sent (run0 [KeyDown "Enter"; TimerFire 1%positive] scanned)
     = [@lookup_request chrome isbn].
Proof.
  split; [|repeat split].
  intros P s. unfold step, handle.
  apply (keeps_async timer_view), keeps_doLookup; intros; reflexivity.
Qed.

(** C5, where the code departs from it. The save request comes back with
    status 200 and an empty body: [apiPost] returns [null] and throws
    nothing, [doSave] throws on [result.saved] before it reaches the
    button, the status line shows the error, and the button stays enabled;
    a second click sends the book again. With the body the endpoint is
    meant to send, the button is disabled. *)
Theorem save_with_empty_body :
  bprop (dom previewed) btnSave disabled = false
  /\ @apiPost_return chrome (Responded ok_empty) = inr JNull
  /\ bprop (dom (run0 [ClickSave; Response 2%positive (Responded ok_empty)] previewed))
       btnSave disabled = false
  /\ shows_error
       (run0 [ClickSave; Response 2%positive (Responded ok_empty)] previewed)
       "Cannot read properties of null (reading 'saved')"
  /\ map path
       (sent (run0 [ClickSave; Response 2%positive (Responded ok_empty); ClickSave]
                previewed))
     = ["/api/books"; "/api/books"; "/api/scan/lookup"]
  /\ bprop (dom (run0 [ClickSave; Response 2%positive (Responded (ok_with saved_7))]
                   previewed))
       btnSave disabled = true.
Proof. repeat split. Qed.

(** ** What keeps the save button disabled *)

Lemma preserves_ret {A} (I : State -> Prop) (x : A) : preserves I (ret x).
Proof. intros s H. exact H. Qed.

Lemma preserves_lift {A} (I : State -> Prop) (c : E A) : preserves I (lift c).
Proof. intros s H. exact H. Qed.

Lemma preserves_gets {A} (I : State -> Prop) (g : State -> A) :
  preserves I (gets g).
Proof. intros s H. exact H. Qed.

Lemma preserves_modify (I : State -> Prop) (g : State -> State) :
  (forall s, I s -> I (g s)) -> preserves I (modify g).
Proof. intros H s Hs. now apply H. Qed.

Lemma preserves_try {A} (I : State -> Prop) (m : M A) (h : exn -> M A) :
  preserves I m -> (forall e, preserves I (h e)) -> preserves I (try_catch m h).
Proof.
  intros Hm Hh s Hs. unfold try_catch. specialize (Hm s Hs).
  destruct (m s) as [s' [e|x]]; simpl in *.
  - now apply Hh.
  - exact Hm.
Qed.

Lemma preserves_async (I : State -> Prop) (m : M unit) :
  preserves I m -> preserves I (async_call m).
Proof. intros Hm s Hs. now apply Hm. Qed.

Lemma keeps_dom_save_off {A} (m : M A) : keeps dom m -> preserves save_off m.
Proof. intros Hk s Hs. unfold save_off. now rewrite Hk. Qed.

(** Takes a goal [preserves save_off m] apart along the shape of [m]; a
    write to an element is settled by what it writes. *)
Ltac save_off_steps :=
  repeat
    match goal with
    | |- preserves _ (ret _) => apply preserves_ret
    | |- preserves _ (lift _) => apply preserves_lift
    | |- preserves _ (gets _) => apply preserves_gets
    | |- preserves _ (async_call _) => apply preserves_async
    | |- preserves _ (bind _ _) => apply preserves_bind; [|intro]
    | |- preserves _ (try_catch _ _) => apply preserves_try; [|intro]
    | |- preserves _ (setS _ _ _) =>
        apply preserves_modify; intros ? ?; assumption
    | |- preserves _ (setB _ _ _) =>
        apply preserves_modify; intros ? ?; first [assumption | reflexivity]
    | |- preserves _ (modify _) =>
        apply preserves_modify; intros ? ?; assumption
    | |- preserves _ (if ?b then _ else _) => destruct b
    | |- preserves _ (match ?x with _ => _ end) => destruct x
    end.

Section SaveOff.

Context {P : Platform}.

Lemma save_off_showStatus msg isError : preserves save_off (showStatus msg isError).
Proof. unfold showStatus. save_off_steps. Qed.

Lemma save_off_clearUI : preserves save_off clearUI.
Proof. unfold clearUI. save_off_steps. Qed.

Lemma save_off_renderRefreshReport result :
  preserves save_off (renderRefreshReport result).
Proof. unfold renderRefreshReport. cbv zeta. save_off_steps. Qed.

Lemma save_off_updateScannerUI : preserves save_off updateScannerUI.
Proof. unfold updateScannerUI. save_off_steps. Qed.

Lemma save_off_doLookup : preserves save_off doLookup.
Proof.
  unfold doLookup, apiPost_send. cbv zeta. save_off_steps;
    first [apply save_off_clearUI | apply save_off_showStatus].
Qed.

Lemma save_off_doSave : preserves save_off doSave.
Proof.
  unfold doSave, apiPost_send. save_off_steps; apply save_off_showStatus.
Qed.

Lemma save_off_refreshAllBooks c : preserves save_off (refreshAllBooks c).
Proof.
  unfold refreshAllBooks, apiPost_send. save_off_steps; apply save_off_showStatus.
Qed.

Lemma save_off_doSave_resume o : preserves save_off (doSave_resume o).
Proof.
  unfold doSave_resume, doSave_try. save_off_steps; apply save_off_showStatus.
Qed.

Lemma save_off_refreshAllBooks_resume o :
  preserves save_off (refreshAllBooks_resume o).
Proof.
  unfold refreshAllBooks_resume, refreshAllBooks_try. save_off_steps;
    first [apply save_off_showStatus | apply save_off_renderRefreshReport].
Qed.

Lemma save_off_scheduleLookup : preserves save_off scheduleLookup.
Proof.
  apply keeps_dom_save_off. unfold scheduleLookup. cbv zeta. monadic;
    apply keeps_modify; intros; reflexivity.
Qed.

Lemma save_off_cancelLookupTimer : preserves save_off cancelLookupTimer.
Proof.
  apply keeps_dom_save_off. unfold cancelLookupTimer. monadic;
    apply keeps_modify; intros; reflexivity.
Qed.

(** Once the save button is disabled, it stays disabled through every
    event but the response to a lookup. *)
Lemma save_stays_disabled (ev : event) (s : State) :
  save_off s ->
  (forall rid o, ev = Response rid o -> find_key rid (awaiting s) <> Some InLookup) ->
  save_off (step ev s).
Proof.
  intros Hs Hev. unfold step.
  destruct ev;
    try (clear Hev; revert s Hs;
         match goal with
         | |- forall s, save_off s -> save_off (fst (?m s)) =>
             change (preserves save_off m)
         end;
         unfold handle, getCookie, setCookie, clearTimeout;
         save_off_steps;
         first [ apply save_off_clearUI | apply save_off_updateScannerUI
               | apply save_off_doLookup | apply save_off_doSave
               | apply save_off_refreshAllBooks
               | apply save_off_scheduleLookup
               | apply save_off_cancelLookupTimer ]).
  (* Response *)
  specialize (Hev rid o eq_refl).
  unfold handle. unfold bind at 1. unfold gets.
  destruct (find_key rid (awaiting s)) as [[| |]|] eqn:Hw; try exact Hs.
  - now elim Hev.
  - unfold bind, modify, async_call. cbn [fst resume].
    apply save_off_doSave_resume. exact Hs.
  - unfold bind, modify, async_call. cbn [fst resume].
    apply save_off_refreshAllBooks_resume. exact Hs.
Qed.

(** [renderLookup] leaves a disabled save button disabled, whatever the
    result is, unless the result has a book and no error. *)
Lemma save_off_renderLookup (result : jsval) (s : State) :
  save_off s ->
  truthy (prop result "error") = true \/ truthy (prop result "book") = false ->
  save_off (fst (renderLookup result s)).
Proof.
  intros Hs H. unfold renderLookup, get_prop. cbv zeta.
  unfold bind, lift, modify, setS. cbn [fst snd].
  destruct (nullish result); [exact Hs|].
  destruct (truthy (prop result "error")) eqn:Herr; [reflexivity|].
  destruct H as [H|Hbook]; [discriminate|].
  destruct (call_toUpperCase (prop result "kind")); [exact Hs|].
  cbn [fst snd]. rewrite Hbook. reflexivity.
Qed.

(** A response to a lookup enables a disabled save button only when it is
    a success whose body has a book and no error. *)
Lemma lookup_enables_only_with_book (o : outcome) (s : State) :
  save_off s ->
  save_off (fst (doLookup_resume o s))
  \/ exists r : response,
       o = Responded r /\ res_ok r = true
       /\ truthy (prop (apiPost_data r) "error") = false
       /\ truthy (prop (apiPost_data r) "book") = true.
Proof.
  intro Hs. destruct o as [e|r].
  - left. exact Hs.
  - destruct (res_ok r) eqn:Hok.
    + destruct (truthy (prop (apiPost_data r) "error")) eqn:Herr;
        [|destruct (truthy (prop (apiPost_data r) "book")) eqn:Hbook].
      * left. unfold doLookup_resume, doLookup_try, try_catch, bind, lift,
          apiPost_return. rewrite Hok. cbn [negb].
        pose proof (save_off_renderLookup (apiPost_data r) s Hs
                      (or_introl Herr)) as Hr.
        destruct (renderLookup (apiPost_data r) s) as [s1 [e|[]]];
          simpl in *; exact Hr.
      * right. exists r. repeat split; assumption.
      * left. unfold doLookup_resume, doLookup_try, try_catch, bind, lift,
          apiPost_return. rewrite Hok. cbn [negb].
        pose proof (save_off_renderLookup (apiPost_data r) s Hs
                      (or_intror Hbook)) as Hr.
        destruct (renderLookup (apiPost_data r) s) as [s1 [e|[]]];
          simpl in *; exact Hr.
    + left. unfold doLookup_resume, doLookup_try, try_catch, bind, lift,
        apiPost_return. rewrite Hok. exact Hs.
Qed.

(** When the save request comes back with a success and a body that is
    not [null], the save button is disabled. *)
Lemma doSave_resume_disables (s : State) (r : response) :
  res_ok r = true -> nullish (apiPost_data r) = false ->
  save_off (fst (doSave_resume (Responded r) s))
  /\ snd (doSave_try (Responded r) s) = inr tt.
Proof.
  intros Hok Hnull.
  unfold doSave_resume, doSave_try, try_catch, bind, lift, apiPost_return,
    get_prop.
  rewrite Hok.
  destruct (apiPost_data r); try discriminate Hnull; split; reflexivity.
Qed.

End SaveOff.

(** ** More of the theorems at work *)

Lemma doLookup_one_request_witness :
  find_key 1%positive (timers scanned) = Some (delay_ms (Some "100"))
  /\ sent (step0 (TimerFire 1%positive) scanned)
     = sent (fst (@doLookup chrome scanned)).
Proof.
  split; [reflexivity|].
  exact (proj2 (proj2 (proj2 (proj2 (@doLookup_one_request chrome scanned))))
           1%positive (delay_ms (Some "100")) eq_refl).
Defined.

Lemma handlers_catch_errors_witness :
  @doLookup_try chrome (Rejected net_down) looking_up = (looking_up, inl net_down)
  /\ shows_error (fst (@doLookup_resume chrome (Rejected net_down) looking_up))
       "Failed to fetch"
  /\ snd (@doLookup_try chrome (Responded ok_empty) looking_up)
     = inl (@TypeError chrome (ReadOfNullish JNull "error"))
  /\ shows_error (fst (@doLookup_resume chrome (Responded ok_empty) looking_up))
       "Cannot read properties of null (reading 'error')".
Proof.
  split; [reflexivity|]. split; [|split; [reflexivity|]].
  - exact (proj1 (proj2 (proj2 (proj2 (proj2 (proj2 (proj2
             (@handlers_catch_errors chrome looking_up (Rejected net_down))))))))
             net_down looking_up eq_refl).
  - exact (proj1 (proj2 (proj2 (proj2 (proj2 (proj2 (proj2
             (@handlers_catch_errors chrome looking_up (Responded ok_empty))))))))
             (@TypeError chrome (ReadOfNullish JNull "error"))
             (fst (@doLookup_try chrome (Responded ok_empty) looking_up))
             eq_refl).
Defined.

Lemma escapeHtml_report_witness :
  has refreshReport start = true
  /\ has refreshList start = true
  /\ sprop (dom (fst (@renderRefreshReport chrome one_updated start)))
       refreshList innerHTML
     = item_open ++ "A&lt;b&gt;" ++ item_mid ++ item_sep ++ "unknown" ++ item_close.
Proof.
  split; [reflexivity|]. split; [reflexivity|].
  exact (proj2 (proj2 (proj2 (proj2 (proj2 (@escapeHtml_report chrome)))))
           one_updated start one_item []
           [item_open ++ "A&lt;b&gt;" ++ item_mid ++ item_sep ++ "unknown" ++ item_close]
           eq_refl eq_refl eq_refl eq_refl).
Defined.

(** * More of what the code shows *)

(** ** The save and the refresh requests *)

Section Requests.

Context {P : Platform}.

Lemma doSave_sent (s : State) :
  sent (fst (doSave s))
  = if truthy (opt_prop (lastLookup s) "book")
    then save_request (prop (lastLookup s) "book") :: sent s
    else sent s.
Proof.
  unfold doSave, bind, gets.
  destruct (truthy (opt_prop (lastLookup s) "book")); reflexivity.
Qed.

Lemma refreshAllBooks_sent (c : bool) (s : State) :
  sent (fst (refreshAllBooks c s))
  = if c then refresh_request (dry_run s) :: sent s else sent s.
Proof. destruct c; reflexivity. Qed.

(** X1. [doSave] does nothing at all when there is no current book
    ([lastLookup] is [null], or has no [book]): no request, the state as it
    was. With a book it shows [Saving...], sends one request, the POST of
    that book to the save endpoint, and waits for its response; it changes
    neither [lastLookup] nor the save button. What runs on the response
    sends nothing. *)
Theorem doSave_guarded (s : State) :
  (if truthy (opt_prop (lastLookup s) "book")
   then sent (fst (doSave s)) = save_request (prop (lastLookup s) "book") :: sent s
        /\ find_key (Pos.of_succ_nat (List.length (sent s)))
             (awaiting (fst (doSave s))) = Some InSave
        /\ sprop (dom (fst (doSave s))) status textContent = "Saving..."
        /\ lastLookup (fst (doSave s)) = lastLookup s
        /\ bprop (dom (fst (doSave s))) btnSave disabled
           = bprop (dom s) btnSave disabled
   else doSave s = (s, inr tt))
  /\ (forall o : outcome, sent (fst (doSave_resume o s)) = sent s).
Proof.
  split.
  - unfold doSave, bind, gets.
    destruct (truthy (opt_prop (lastLookup s) "book")); [|reflexivity].
    cbn [negb]. repeat split. simpl. now rewrite Pos.eqb_refl.
  - intro o. apply (keeps_doSave_resume sent); reflexivity.
Qed.

(** X2. [refreshAllBooks] does nothing at all when the user declines the
    confirmation. Once confirmed it shows [Refreshing all books...] and
    sends one request, the POST to the refresh endpoint with [dry_run] as
    the checkbox has it ([false] when the page has no checkbox) and
    [only_missing] false; what runs on the response sends nothing. A click
    on a page without the refresh button changes nothing. *)
Theorem refreshAllBooks_confirmed (s : State) :
  refreshAllBooks false s = (s, inr tt)
  /\ sent (fst (refreshAllBooks true s)) = refresh_request (dry_run s) :: sent s
  /\ sprop (dom (fst (refreshAllBooks true s))) status textContent
     = "Refreshing all books..."
  /\ find_key (Pos.of_succ_nat (List.length (sent s)))
       (awaiting (fst (refreshAllBooks true s))) = Some InRefresh
  /\ (forall o : outcome, sent (fst (refreshAllBooks_resume o s)) = sent s)
  /\ (forall c : bool, has btnRefreshAll s = false -> step (ClickRefreshAll c) s = s).
Proof.
  repeat split.
  - simpl. now rewrite Pos.eqb_refl.
  - intro o. apply (keeps_refreshAllBooks_resume sent); reflexivity.
  - intros c H. unfold step, handle, bind, gets. now rewrite H.
Qed.

Lemma keeps_sent_scheduleLookup : keeps sent scheduleLookup.
Proof.
  unfold scheduleLookup. cbv zeta. monadic;
    apply keeps_modify; intros; reflexivity.
Qed.

Lemma keeps_sent_cancelLookupTimer : keeps sent cancelLookupTimer.
Proof.
  unfold cancelLookupTimer. monadic; apply keeps_modify; intros; reflexivity.
Qed.

Lemma known_lookup_request (c : string) : known_request (lookup_request c).
Proof. repeat split. now left. Qed.

Lemma known_save_request (b : jsval) : known_request (save_request b).
Proof. repeat split. right. now left. Qed.

Lemma known_refresh_request (d : bool) : known_request (refresh_request d).
Proof. repeat split. right. now right. Qed.

(** Leaves of a goal [keeps sent m]. *)
Ltac sent_leaf :=
  match goal with
  | |- keeps _ (setS _ _ _) => apply keeps_setS
  | |- keeps _ (setB _ _ _) => apply keeps_setB
  | |- keeps _ clearUI => apply keeps_clearUI
  | |- keeps _ updateScannerUI => apply keeps_updateScannerUI
  | |- keeps _ (resume _ _) => apply keeps_resume
  | |- keeps _ scheduleLookup => apply keeps_sent_scheduleLookup
  | |- keeps _ cancelLookupTimer => apply keeps_sent_cancelLookupTimer
  | |- keeps _ (modify _) => apply keeps_modify
  end; intros; reflexivity.

Lemma quiet_events_send_nothing (ev : event) (s : State) :
  calls_api ev = false -> sent (step ev s) = sent s.
Proof.
  intro H. unfold step. revert s.
  change (keeps sent (handle ev)).
  destruct ev; try discriminate H; simpl in H;
    unfold handle, getCookie, setCookie; try rewrite H;
    monadic; try sent_leaf.
  (* the refresh button, declined *)
  subst confirmed. apply keeps_ret.
Qed.

Lemma sent_ClickSave (s : State) :
  sent (step ClickSave s)
  = if bprop (dom s) btnSave disabled then sent s else sent (fst (doSave s)).
Proof.
  unfold step, handle, bind, gets.
  destruct (bprop (dom s) btnSave disabled); reflexivity.
Qed.

Lemma sent_ClickRefreshAll (c : bool) (s : State) :
  sent (step (ClickRefreshAll c) s)
  = if has btnRefreshAll s then sent (fst (refreshAllBooks c s)) else sent s.
Proof.
  unfold step, handle, bind, gets. destruct (has btnRefreshAll s); reflexivity.
Qed.

Lemma sent_Enter (s : State) :
  sent (step (KeyDown "Enter") s) = sent (fst (doLookup s)).
Proof.
  unfold step, handle. cbn [String.eqb Ascii.eqb Bool.eqb]. unfold bind.
  destruct (cancelLookupTimer s) as [s1 [e|[]]] eqn:Hs1.
  - exfalso. unfold cancelLookupTimer, bind, gets in Hs1.
    destruct (lookupTimer s); discriminate.
  - cbn [async_call fst]. rewrite !doLookup_sent.
    destruct (cancelLookupTimer_dom_sent s) as [Hd Hs].
    rewrite Hs1 in Hd, Hs. simpl in Hd, Hs. now rewrite Hd, Hs.
Qed.

Lemma sent_TimerFire (id : positive) (s : State) :
  sent (step (TimerFire id) s)
  = match find_key id (timers s) with
    | Some _ => sent (fst (doLookup s))
    | None => sent s
    end.
Proof.
  unfold step, handle, bind, gets. destruct (find_key id (timers s)); [|reflexivity].
  cbn [clearTimeout modify async_call fst]. now rewrite !doLookup_sent.
Qed.

Lemma one_request_at_most (ev : event) (s : State) :
  sent (step ev s) = sent s
  \/ exists r, sent (step ev s) = r :: sent s /\ known_request r.
Proof.
  destruct (calls_api ev) eqn:Hc.
  2: { left. now apply quiet_events_send_nothing. }
  assert (Hlookup : sent (fst (doLookup s)) = sent s
                    \/ exists r, sent (fst (doLookup s)) = r :: sent s
                                 /\ known_request r).
  { rewrite doLookup_sent. destruct (nonempty _); [right|left; reflexivity].
    eexists. split; [reflexivity|apply known_lookup_request]. }
  destruct ev; try discriminate Hc.
  - exact Hlookup.
  - rewrite sent_ClickSave.
    destruct (bprop (dom s) btnSave disabled); [left; reflexivity|].
    rewrite doSave_sent. destruct (truthy _); [right|left; reflexivity].
    eexists. split; [reflexivity|apply known_save_request].
  - rewrite sent_ClickRefreshAll.
    destruct (has btnRefreshAll s); [|left; reflexivity].
    rewrite refreshAllBooks_sent. destruct confirmed; [right|left; reflexivity].
    eexists. split; [reflexivity|apply known_refresh_request].
  - simpl in Hc. apply String.eqb_eq in Hc. subst key.
    rewrite sent_Enter. exact Hlookup.
  - rewrite sent_TimerFire.
    destruct (find_key id (timers s)); [exact Hlookup|left; reflexivity].
Qed.

(** X3. An event makes the page send at most one request, and only the
    lookup button, the save button, the confirmed refresh button, the Enter
    key and a timeout make it send any: a response, whatever it is, never
    does (nothing is retried), nor do typing, clearing, the settings and
    the load. *)
Theorem requests_per_event (ev : event) (s : State) :
  (sent (step ev s) = sent s
   \/ exists r, sent (step ev s) = r :: sent s /\ known_request r)
  /\ (if calls_api ev then True else sent (step ev s) = sent s)
  /\ (forall (rid : positive) (o : outcome),
         sent (step (Response rid o) s) = sent s).
Proof.
  split; [apply one_request_at_most|split].
  - destruct (calls_api ev) eqn:H; [exact I|].
    now apply quiet_events_send_nothing.
  - intros rid o. now apply quiet_events_send_nothing.
Qed.

Lemma run_known_requests (evs : list event) (s : State) :
  Forall known_request (sent s) -> Forall known_request (sent (run evs s)).
Proof.
  revert s. induction evs as [|ev evs IH]; intros s Hs; [exact Hs|].
  simpl. apply IH.
  destruct (one_request_at_most ev s) as [H|[r [H Hr]]]; rewrite H.
  - exact Hs.
  - now constructor.
Qed.

(** X4. Whatever happens on the page, every request it has sent is a POST
    with the JSON content type to the lookup, the save or the refresh
    endpoint. *)
Theorem only_known_requests (d : Dom) (ck : list (string * string))
    (evs : list event) :
  Forall known_request (sent (run evs (init d ck))).
Proof. apply run_known_requests. constructor. Qed.

End Requests.

(** ** Typing, clearing and saving *)

Section Typing.

Context {P : Platform}.

Lemma step_Input_off (v : string) (s : State) :
  scanner_on s = false -> step (Input v) s = typed v s.
Proof.
  intro H. unfold step, handle, bind. cbn [setS modify].
  fold (typed v s). now rewrite scheduleLookup_off.
Qed.

Lemma last_after_first {A} (vs : list A) (v x : A) :
  last (v :: vs) x = last vs v.
Proof.
  revert v x. induction vs as [|w vs IH]; intros v x; [reflexivity|].
  change (last (v :: w :: vs) x) with (last (w :: vs) x).
  now rewrite (IH w x), (IH w v).
Qed.

(** X5. With scanner mode unchecked (or no scanner-mode checkbox on the
    page), typing only changes the code field: however many input events
    come, no timeout is set or removed, nothing is sent, and [lastLookup]
    stays as it was. *)
Theorem typing_with_scanner_off (vs : list string) (s : State) :
  scanner_on s = false ->
  timer_view (run (map Input vs) s) = timer_view s
  /\ sent (run (map Input vs) s) = sent s
  /\ awaiting (run (map Input vs) s) = awaiting s
  /\ lastLookup (run (map Input vs) s) = lastLookup s
  /\ scanner_on (run (map Input vs) s) = false
  /\ sprop (dom (run (map Input vs) s)) code value
     = last vs (sprop (dom s) code value).
Proof.
  revert s. induction vs as [|v vs IH]; intros s Hoff.
  - repeat split. exact Hoff.
  - simpl map. change (run (Input v :: map Input vs) s)
      with (run (map Input vs) (step (Input v) s)).
    rewrite (step_Input_off v s Hoff).
    assert (Hoff' : scanner_on (typed v s) = false) by exact Hoff.
    destruct (IH (typed v s) Hoff') as [Ht [Hs [Ha [Hl [Ho Hc]]]]].
    rewrite Ht, Hs, Ha, Hl, Ho, Hc. repeat split.
    change (sprop (dom (typed v s)) code value) with v.
    symmetry. apply last_after_first.
Qed.

Lemma after_modify {X A} (f : State -> X) (g : State -> State)
    (k : unit -> M A) (s : State) :
  keeps f (k tt) -> f (fst (bind (modify g) k s)) = f (g s).
Proof. intro H. unfold bind, modify. apply H. Qed.

Lemma keeps_lastLookup_rest_of_render (result : jsval) (s : State) :
  lastLookup (fst (renderLookup result s)) = result.
Proof.
  unfold renderLookup. cbv zeta.
  etransitivity; [apply after_modify|reflexivity]. cbv beta.
  monadic;
    first [apply keeps_setS | apply keeps_setB | apply keeps_showStatus];
    intros; reflexivity.
Qed.

Lemma doLookup_resume_lastLookup (r : response) (s : State) :
  res_ok r = true ->
  lastLookup (fst (doLookup_resume (Responded r) s)) = apiPost_data r.
Proof.
  intro Hok. unfold doLookup_resume, doLookup_try, try_catch, bind, lift,
    apiPost_return. rewrite Hok. cbn [negb].
  pose proof (keeps_lastLookup_rest_of_render (apiPost_data r) s) as H.
  destruct (renderLookup (apiPost_data r) s) as [s1 [e|[]]]; simpl in *; exact H.
Qed.

(** X6. [renderLookup] stores the result in [lastLookup] whatever else
    happens (also when the rendering throws), so a [doSave] that follows
    sends the book of that very result, or nothing when the result has no
    book. The response to a lookup that arrives last is the one in
    [lastLookup]: a later success replaces an earlier one, whichever
    request each answers. *)
Theorem lookup_then_save (result : jsval) (s : State) :
  lastLookup (fst (renderLookup result s)) = result
  /\ sent (fst (doSave (fst (renderLookup result s))))
     = (if truthy (opt_prop result "book")
        then save_request (prop result "book") :: sent s
        else sent s)
  /\ (forall r1 r2 : response,
         res_ok r2 = true ->
         lastLookup (fst (doLookup_resume (Responded r2)
                            (fst (doLookup_resume (Responded r1) s))))
         = apiPost_data r2).
Proof.
  split; [apply keeps_lastLookup_rest_of_render|split].
  - assert (Hs : sent (fst (renderLookup result s)) = sent s)
      by (apply (keeps_renderLookup sent); reflexivity).
    now rewrite doSave_sent, keeps_lastLookup_rest_of_render, Hs.
  - intros r1 r2 Hok. now apply doLookup_resume_lastLookup.
Qed.

Lemma doLookup_resume_failed (o : outcome) (s : State) :
  failed o = true ->
  exists e,
    apiPost_return o = inl e
    /\ doLookup_resume o s
       = ((showStatus (message_or e "Lookup failed") true ;;
           setS raw textContent
             (JSON_stringify (JObj [("error", JStr (exn_toString e))]) 2)) s).
Proof.
  intro H. destruct o as [e|r]; simpl in H.
  - exists e. split; reflexivity.
  - apply negb_true_iff in H.
    unfold doLookup_resume, doLookup_try, try_catch, bind at 1, lift,
      apiPost_return. rewrite H. cbn [negb].
    eexists. split; reflexivity.
Qed.

Lemma doLookup_clears (s : State) :
  nonempty (trim (sprop (dom s) code value)) = true ->
  lastLookup (fst (doLookup s)) = JNull
  /\ bprop (dom (fst (doLookup s))) btnSave disabled = true
  /\ sprop (dom (fst (doLookup s))) preview display = "none".
Proof.
  intro Hc. unfold doLookup, bind, gets. cbv zeta. rewrite Hc. cbn [negb].
  repeat split.
Qed.

Lemma doSave_no_book (s : State) :
  truthy (opt_prop (lastLookup s) "book") = false -> doSave s = (s, inr tt).
Proof. intro H. unfold doSave, bind, gets. now rewrite H. Qed.

(** X7. The response of a lookup that fails in [apiPost] (the request is
    rejected, or the status is no success) only shows the error: its
    handler leaves [lastLookup], the save button and the preview as they
    are. It is [doLookup] that clears them, when it starts. So when the
    failed response is handled right after the [doLookup] that sent it,
    [lastLookup] is [null], the save button is disabled, the preview is
    hidden and [doSave] does nothing; when the success of another lookup
    was handled in between, the result of that lookup stays in
    [lastLookup]. *)
Theorem failed_lookup_response (s : State) (o : outcome) :
  failed o = true ->
  (let s1 := fst (doLookup_resume o s) in
   lastLookup s1 = lastLookup s
   /\ bprop (dom s1) btnSave disabled = bprop (dom s) btnSave disabled
   /\ sprop (dom s1) preview display = sprop (dom s) preview display
   /\ sent s1 = sent s
   /\ exists e, apiPost_return o = inl e
                /\ shows_error s1 (message_or e "Lookup failed"))
  /\ (nonempty (trim (sprop (dom s) code value)) = true ->
      let s2 := fst (doLookup_resume o (fst (doLookup s))) in
      lastLookup s2 = JNull
      /\ bprop (dom s2) btnSave disabled = true
      /\ sprop (dom s2) preview display = "none"
      /\ doSave s2 = (s2, inr tt))
  /\ (forall r : response,
         res_ok r = true ->
         lastLookup (fst (doLookup_resume o (fst (doLookup_resume (Responded r) s))))
         = apiPost_data r).
Proof.
  intro Hf.
  assert (A : forall s0 : State,
             lastLookup (fst (doLookup_resume o s0)) = lastLookup s0
             /\ bprop (dom (fst (doLookup_resume o s0))) btnSave disabled
                = bprop (dom s0) btnSave disabled
             /\ sprop (dom (fst (doLookup_resume o s0))) preview display
                = sprop (dom s0) preview display
             /\ sent (fst (doLookup_resume o s0)) = sent s0
             /\ exists e, apiPost_return o = inl e
                          /\ shows_error (fst (doLookup_resume o s0))
                               (message_or e "Lookup failed")).
  { intro s0. destruct (doLookup_resume_failed o s0 Hf) as [e [He Hr]].
    rewrite Hr. repeat split. exists e. split; [exact He|repeat split]. }
  split; [exact (A s)|]. split.
  - intros Hc s2. subst s2.
    destruct (doLookup_clears s Hc) as [Hl [Hb Hp]].
    revert Hl Hb Hp. generalize (fst (doLookup s)). intros s1 Hl Hb Hp.
    destruct (A s1) as [Al [Ab [Ap _]]].
    rewrite Al, Ab, Ap. repeat split; try assumption.
    apply doSave_no_book. now rewrite Al, Hl.
  - intros r Hok.
    destruct (A (fst (doLookup_resume (Responded r) s))) as [Al _].
    rewrite Al. now apply doLookup_resume_lastLookup.
Qed.

Lemma keeps_lastLookup_cancel : keeps lastLookup cancelLookupTimer.
Proof.
  unfold cancelLookupTimer. monadic; apply keeps_modify; intros; reflexivity.
Qed.

Lemma fst_bind {A B} (m : M A) (k : A -> M B) (s : State) (x : A) :
  snd (m s) = inr x -> fst (bind m k s) = fst (k x (fst (m s))).
Proof. unfold bind. destruct (m s) as [s' r]. simpl. now intros ->. Qed.

Lemma clearUI_state (s : State) :
  lastLookup (fst (clearUI s)) = JNull
  /\ bprop (dom (fst (clearUI s))) btnSave disabled = true
  /\ sprop (dom (fst (clearUI s))) status display = "none"
  /\ sprop (dom (fst (clearUI s))) preview display = "none"
  /\ timer_view (fst (clearUI s)) = timer_view s
  /\ sent (fst (clearUI s)) = sent s.
Proof. repeat split. Qed.

Lemma step_ClickClear (s : State) :
  step ClickClear s
  = fst (cancelLookupTimer (typed EmptyString (fst (clearUI s)))).
Proof.
  unfold step, handle.
  rewrite (fst_bind clearUI _ s tt) by apply total_unit, total_clearUI.
  now rewrite (fst_bind (setS code value EmptyString) _ _ tt) by reflexivity.
Qed.

(** X8. In every state the page reaches, a click on Clear leaves no
    timeout set, the code field empty, [lastLookup] [null], the save button
    disabled and the status and the preview hidden; and until something is
    typed, neither the lookup button, nor a key, nor the save button, nor a
    timeout sends anything. *)
Theorem clear_resets (d : Dom) (ck : list (string * string)) (evs : list event) :
  let s := step ClickClear (run evs (init d ck)) in
  timers s = [] /\ lookupTimer s = None
  /\ sprop (dom s) code value = EmptyString
  /\ lastLookup s = JNull
  /\ bprop (dom s) btnSave disabled = true
  /\ sprop (dom s) status display = "none"
  /\ sprop (dom s) preview display = "none"
  /\ sent (step ClickLookup s) = sent s
  /\ (forall key : string, sent (step (KeyDown key) s) = sent s)
  /\ step ClickSave s = s
  /\ (forall id : positive, step (TimerFire id) s = s).
Proof.
  intro s. subst s.
  assert (Hinv : timer_inv (run evs (init d ck)))
    by apply run_timer_inv, init_timer_inv.
  revert Hinv. generalize (run evs (init d ck)). intros s0 Hinv.
  rewrite step_ClickClear.
  destruct (clearUI_state s0) as [Hl0 [Hb0 [Hst0 [Hp0 [Ht0 _]]]]].
  revert Hl0 Hb0 Hst0 Hp0 Ht0. generalize (fst (clearUI s0)).
  intros sc Hl0 Hb0 Hst0 Hp0 Ht0.
  assert (Hinv1 : timer_inv (typed EmptyString sc)).
  { apply (timer_inv_view s0); [exact Ht0|exact Hinv]. }
  destruct (cancelLookupTimer_clears _ Hinv1) as [Ht Hl].
  destruct (cancelLookupTimer_dom_sent (typed EmptyString sc)) as [Hd _].
  pose proof (keeps_lastLookup_cancel (typed EmptyString sc)) as Hll.
  revert Ht Hl Hd Hll. generalize (fst (cancelLookupTimer (typed EmptyString sc))).
  intros s2 Ht Hl Hd Hll.
  assert (Hcode : sprop (dom s2) code value = EmptyString) by (rewrite Hd; reflexivity).
  assert (Hoff : bprop (dom s2) btnSave disabled = true) by (rewrite Hd; exact Hb0).
  repeat match goal with |- _ /\ _ => split end.
  - exact Ht.
  - exact Hl.
  - exact Hcode.
  - rewrite Hll. exact Hl0.
  - exact Hoff.
  - rewrite Hd. exact Hst0.
  - rewrite Hd. exact Hp0.
  - change (sent (fst (doLookup s2)) = sent s2).
    rewrite doLookup_sent, Hcode. reflexivity.
  - intro key. destruct (String.eqb key "Enter") eqn:Hk.
    + apply String.eqb_eq in Hk. subst key. rewrite sent_Enter, doLookup_sent, Hcode.
      reflexivity.
    + apply quiet_events_send_nothing. exact Hk.
  - unfold step, handle, bind, gets. now rewrite Hoff.
  - intro id. unfold step, handle, bind, gets. now rewrite Ht.
Qed.

(** X9. A click on the save button does nothing while the button is
    disabled. While it is enabled the click calls [doSave] and empties the
    code field, whether or not a request went out; so a lookup asked for
    right after, by the button or the Enter key, sends nothing. *)
Theorem save_click (s : State) :
  if bprop (dom s) btnSave disabled
  then step ClickSave s = s
  else sprop (dom (step ClickSave s)) code value = EmptyString
       /\ sent (step ClickSave s) = sent (fst (doSave s))
       /\ lastLookup (step ClickSave s) = lastLookup s
       /\ sent (run [ClickSave; ClickLookup] s) = sent (step ClickSave s)
       /\ sent (run [ClickSave; KeyDown "Enter"] s) = sent (step ClickSave s).
Proof.
  destruct (bprop (dom s) btnSave disabled) eqn:Hb.
  - unfold step, handle, bind, gets. now rewrite Hb.
  - assert (Hcode : sprop (dom (step ClickSave s)) code value = EmptyString).
    { unfold step, handle, bind, gets. rewrite Hb. reflexivity. }
    split; [exact Hcode|split; [|split; [|split]]].
    + rewrite sent_ClickSave, Hb. reflexivity.
    + unfold step, handle, bind, gets. rewrite Hb.
      unfold async_call, setS, modify. cbn [fst lastLookup set_dom].
      apply (keeps_doSave lastLookup); reflexivity.
    + change (sent (fst (doLookup (step ClickSave s))) = sent (step ClickSave s)).
      now rewrite doLookup_sent, Hcode.
    + change (sent (step (KeyDown "Enter") (step ClickSave s))
              = sent (step ClickSave s)).
      now rewrite sent_Enter, doLookup_sent, Hcode.
Qed.

End Typing.

Lemma typing_with_scanner_off_witness :
  scanner_on (init (page false "100") []) = false
  /\ timer_view (@run chrome (map Input ["9"; "97"]) (init (page false "100") []))
     = timer_view (init (page false "100") []).
Proof.
  split; [reflexivity|].
  exact (proj1 (@typing_with_scanner_off chrome ["9"; "97"]
                  (init (page false "100") []) eq_refl)).
Defined.

Lemma failed_lookup_response_witness :
  failed (Responded not_found) = true
  /\ nonempty (trim (sprop (dom scanned) code value)) = true
  /\ @doSave chrome
       (fst (@doLookup_resume chrome (Responded not_found)
               (fst (@doLookup chrome scanned))))
     = (fst (@doLookup_resume chrome (Responded not_found)
               (fst (@doLookup chrome scanned))), inr tt)
  /\ lastLookup
       (fst (@doLookup_resume chrome (Responded not_found)
               (fst (@doLookup_resume chrome (Responded (ok_with clean_code))
                       scanned))))
     = clean_code
  /\ bprop
       (dom (fst (@doLookup_resume chrome (Responded not_found)
                    (fst (@doLookup_resume chrome (Responded (ok_with clean_code))
                            scanned)))))
       btnSave disabled = false.
Proof.
  split; [reflexivity|]. split; [reflexivity|].
  pose proof (@failed_lookup_response chrome scanned (Responded not_found) eq_refl)
    as [_ [B C]].
  split; [exact (proj2 (proj2 (proj2 (B eq_refl))))|].
  split; [exact (C (ok_with clean_code) eq_refl)|reflexivity].
Defined.

(** ** The settings *)

Section Settings.

Context {P : Platform}.

Lemma updateScannerUI_cookies (s : State) :
  cookies (fst (updateScannerUI s)) = cookies s.
Proof. apply (keeps_updateScannerUI cookies); reflexivity. Qed.

Lemma updateScannerUI_there (s : State) :
  has scannerMode s = true -> has scannerDelay s = true ->
  has scannerDelayInput s = true ->
  snd (updateScannerUI s) = inr tt
  /\ bprop (dom (fst (updateScannerUI s))) scannerDelayInput disabled
     = negb (bprop (dom s) scannerMode checked)
  /\ bprop (dom (fst (updateScannerUI s))) scannerDelay hidden
     = negb (bprop (dom s) scannerMode checked)
  /\ bprop (dom (fst (updateScannerUI s))) scannerMode checked
     = bprop (dom s) scannerMode checked.
Proof.
  intros Hm Hd Hi. unfold updateScannerUI, bind, gets.
  rewrite Hm, Hd. cbn [negb orb]. cbv beta iota. rewrite Hi. repeat split.
Qed.

Lemma updateScannerUI_no_input (s : State) :
  has scannerMode s = true -> has scannerDelay s = true ->
  has scannerDelayInput s = false ->
  updateScannerUI s = (s, inl (TypeError (WriteOfNull "disabled"))).
Proof.
  intros Hm Hd Hi. unfold updateScannerUI, bind, gets.
  rewrite Hm, Hd. cbn [negb orb]. cbv beta iota. now rewrite Hi.
Qed.

Lemma updateScannerUI_no_block (s : State) :
  has scannerMode s = false \/ has scannerDelay s = false ->
  updateScannerUI s = (s, inr tt).
Proof.
  intros H. unfold updateScannerUI, bind, gets.
  destruct H as [H|H]; rewrite H; [reflexivity|].
  destruct (has scannerMode s); reflexivity.
Qed.

(** The state once the browser has changed the checkbox and the listener
    has written the cookie. *)
Lemma step_ChangeScannerMode (b : bool) (s : State) :
  has scannerMode s = true ->
  step (ChangeScannerMode b) s
  = fst (updateScannerUI
           (fst (setCookie COOKIE_SCANNER_MODE (if b then "1" else "0")
                   (fst (setB scannerMode checked b s))))).
Proof.
  intro H. unfold step, handle.
  rewrite (fst_bind _ _ s true) by (unfold gets; simpl; now rewrite H).
  cbn [gets fst].
  rewrite (fst_bind (setB scannerMode checked b) _ s tt) by reflexivity.
  now rewrite (fst_bind (setCookie _ _) _ _ tt) by reflexivity.
Qed.

(** X10. When the scanner-mode checkbox changes, the listener writes the
    cookie [scanner_mode] ([1] for checked, [0] for unchecked) and, on a
    page that has the delay block and its input, disables the input and
    hides the block exactly when the box is unchecked. On a page that has
    the block and no input it throws a [TypeError] after the cookie is
    written, and the block is left as it was. *)
Theorem scanner_mode_change (b : bool) (s : State) :
  has scannerMode s = true ->
  let s' := step (ChangeScannerMode b) s in
  bprop (dom s') scannerMode checked = b
  /\ cookie_of COOKIE_SCANNER_MODE (cookies s') = Some (if b then "1" else "0")
  /\ (if has scannerDelay s
      then if has scannerDelayInput s
           then snd (handle (ChangeScannerMode b) s) = inr tt
                /\ bprop (dom s') scannerDelayInput disabled = negb b
                /\ bprop (dom s') scannerDelay hidden = negb b
           else snd (handle (ChangeScannerMode b) s)
                = inl (TypeError (WriteOfNull "disabled"))
                /\ bprop (dom s') scannerDelay hidden
                   = bprop (dom s) scannerDelay hidden
      else snd (handle (ChangeScannerMode b) s) = inr tt
           /\ bprop (dom s') scannerDelayInput disabled
              = bprop (dom s) scannerDelayInput disabled).
Proof.
  intros Hm s'. subst s'. rewrite (step_ChangeScannerMode b s Hm).
  set (s1 := fst (setCookie COOKIE_SCANNER_MODE (if b then "1" else "0")
                    (fst (setB scannerMode checked b s)))).
  assert (Hm1 : has scannerMode s1 = true) by exact Hm.
  assert (Hchk : bprop (dom s1) scannerMode checked = b) by reflexivity.
  assert (Hck : cookie_of COOKIE_SCANNER_MODE (cookies s1)
                = Some (if b then "1" else "0")) by reflexivity.
  assert (Hsnd : snd (handle (ChangeScannerMode b) s) = snd (updateScannerUI s1)).
  { unfold handle, bind, gets. rewrite Hm. reflexivity. }
  rewrite Hsnd, updateScannerUI_cookies.
  split; [|split; [exact Hck|]].
  - destruct (has scannerDelay s) eqn:Hd.
    + destruct (has scannerDelayInput s) eqn:Hi.
      * destruct (updateScannerUI_there s1 Hm1 Hd Hi) as [_ [_ [_ H]]].
        now rewrite H.
      * now rewrite (updateScannerUI_no_input s1 Hm1 Hd Hi).
    + now rewrite (updateScannerUI_no_block s1 (or_intror Hd)).
  - destruct (has scannerDelay s) eqn:Hd.
    + destruct (has scannerDelayInput s) eqn:Hi.
      * destruct (updateScannerUI_there s1 Hm1 Hd Hi) as [H1 [H2 [H3 _]]].
        rewrite H1, H2, H3, Hchk. repeat split.
      * rewrite (updateScannerUI_no_input s1 Hm1 Hd Hi). split; reflexivity.
    + rewrite (updateScannerUI_no_block s1 (or_intror Hd)). split; reflexivity.
Qed.

Lemma clamp_value (n : jsnum) :
  match n with
  | NaN => Math_max (num_of_Z 50) (Math_min (num_of_Z 2000) n) = NaN
  | PosInf => Math_max (num_of_Z 50) (Math_min (num_of_Z 2000) n) = num_of_Z 2000
  | NegInf => Math_max (num_of_Z 50) (Math_min (num_of_Z 2000) n) = num_of_Z 50
  | Fin q =>
      ((q < inject_Z 50)%Q ->
       Math_max (num_of_Z 50) (Math_min (num_of_Z 2000) n) = num_of_Z 50)
      /\ ((inject_Z 50 <= q)%Q -> (q < inject_Z 2000)%Q ->
          Math_max (num_of_Z 50) (Math_min (num_of_Z 2000) n) = Fin q)
      /\ ((inject_Z 2000 <= q)%Q ->
          Math_max (num_of_Z 50) (Math_min (num_of_Z 2000) n) = num_of_Z 2000)
  end.
Proof.
  destruct n as [| | |q]; try reflexivity.
  unfold num_of_Z. cbn [Math_min].
  assert (H50 : (inject_Z 50 < inject_Z 2000)%Q) by (unfold Qlt; simpl; lia).
  split; [|split].
  - intro Hq.
    assert (H1 : Qle_bool (inject_Z 2000) q = false).
    { apply not_true_is_false. intro H. apply Qle_bool_iff in H.
      apply (Qlt_irrefl q). eapply Qlt_le_trans; [|exact H].
      eapply Qlt_trans; eassumption. }
    rewrite H1. cbn [Math_max].
    assert (H2 : Qle_bool (inject_Z 50) q = false).
    { apply not_true_is_false. intro H. apply Qle_bool_iff in H.
      apply (Qlt_irrefl q). eapply Qlt_le_trans; eassumption. }
    now rewrite H2.
  - intros Hlo Hhi.
    assert (H1 : Qle_bool (inject_Z 2000) q = false).
    { apply not_true_is_false. intro H. apply Qle_bool_iff in H.
      apply (Qlt_irrefl q). eapply Qlt_le_trans; eassumption. }
    rewrite H1. cbn [Math_max].
    assert (H2 : Qle_bool (inject_Z 50) q = true) by now apply Qle_bool_iff.
    now rewrite H2.
  - intro Hq.
    assert (H1 : Qle_bool (inject_Z 2000) q = true) by now apply Qle_bool_iff.
    rewrite H1. reflexivity.
Qed.

(** X11. The delay [scheduleLookup] takes from the delay input is the
    number in the input when that number is at least 50 and below 2000; it
    is 50 for a smaller number (and for minus infinity) and 2000 for a
    number from 2000 on (and for infinity). *)
Theorem delay_ms_value (v : string) :
  nonempty v = true ->
  match StringToNumber v with
  | NaN => delay_ms (Some v) = NaN
  | PosInf => delay_ms (Some v) = num_of_Z 2000
  | NegInf => delay_ms (Some v) = num_of_Z 50
  | Fin q =>
      ((q < inject_Z 50)%Q -> delay_ms (Some v) = num_of_Z 50)
      /\ ((inject_Z 50 <= q)%Q -> (q < inject_Z 2000)%Q -> delay_ms (Some v) = Fin q)
      /\ ((inject_Z 2000 <= q)%Q -> delay_ms (Some v) = num_of_Z 2000)
  end.
Proof.
  intro Hv. unfold delay_ms. rewrite Hv. apply clamp_value.
Qed.

End Settings.

Lemma scanner_mode_change_witness :
  has scannerMode start = true
  /\ cookie_of COOKIE_SCANNER_MODE (cookies (step0 (ChangeScannerMode false) start))
     = Some "0"
  /\ has scannerMode (init page_without_delay_input []) = true
  /\ snd (@handle chrome (ChangeScannerMode true) (init page_without_delay_input []))
     = inl (@TypeError chrome (WriteOfNull "disabled")).
Proof.
  split; [reflexivity|]. split; [|split; [reflexivity|]].
  - exact (proj1 (proj2 (@scanner_mode_change chrome false start eq_refl))).
  - exact (proj1 (proj2 (proj2 (@scanner_mode_change chrome true
                                  (init page_without_delay_input []) eq_refl)))).
Defined.

Lemma delay_ms_value_witness :
  nonempty "100" = true /\ delay_ms (Some "100") = StringToNumber "100".
Proof.
  split; [reflexivity|].
  pose proof (delay_ms_value "100" eq_refl) as H.
  lazy in H. destruct H as [_ [H _]].
  lazy. apply H; [discriminate|reflexivity].
Defined.

(** ** Escaping loses nothing *)

Lemma decode_head_entity (c : ascii) (r : string) :
  decode_head (entity c ++ r) = Some (c, r).
Proof. destruct c as [[] [] [] [] [] [] [] []]; simpl; reflexivity. Qed.

Lemma escape_each_injective (a b : string) :
  escape_each a = escape_each b -> a = b.
Proof.
  revert b. induction a as [|c a IH]; intros [|c' b] H.
  - reflexivity.
  - apply (f_equal decode_head) in H. simpl escape_each in H.
    rewrite decode_head_entity in H. discriminate.
  - apply (f_equal decode_head) in H. simpl escape_each in H.
    rewrite decode_head_entity in H. discriminate.
  - apply (f_equal decode_head) in H. simpl escape_each in H.
    rewrite !decode_head_entity in H. injection H as -> H.
    now rewrite (IH b H).
Qed.

Lemma length_app_string (a b : string) :
  String.length (a ++ b) = (String.length a + String.length b)%nat.
Proof. induction a as [|c a IH]; simpl; [reflexivity|now rewrite IH]. Qed.

Lemma entity_length (c : ascii) : (1 <= String.length (entity c))%nat.
Proof. destruct c as [[] [] [] [] [] [] [] []]; simpl; lia. Qed.

Lemma escape_each_length (s : string) :
  (String.length s <= String.length (escape_each s))%nat.
Proof.
  induction s as [|c s IH]; simpl; [lia|].
  rewrite length_app_string. pose proof (entity_length c). lia.
Qed.

Lemma entity_of_plain (c : ascii) :
  Ascii.eqb c c_amp || Ascii.eqb c c_lt || Ascii.eqb c c_gt
  || Ascii.eqb c c_quot || Ascii.eqb c c_apos = false ->
  entity c = String c EmptyString.
Proof.
  destruct c as [[] [] [] [] [] [] [] []]; vm_compute; intro H;
    first [reflexivity | discriminate H].
Qed.

Lemma entity_of_special (c : ascii) :
  Ascii.eqb c c_amp || Ascii.eqb c c_lt || Ascii.eqb c c_gt
  || Ascii.eqb c c_quot || Ascii.eqb c c_apos = true ->
  (3 <= String.length (entity c))%nat.
Proof.
  destruct c as [[] [] [] [] [] [] [] []]; vm_compute; intro H;
    first [discriminate H | repeat constructor].
Qed.

Lemma escape_each_plain (s : string) :
  escape_each s = s <-> plain_text s = true.
Proof.
  induction s as [|c s IH]; simpl; [tauto|].
  destruct (Ascii.eqb c c_amp || Ascii.eqb c c_lt || Ascii.eqb c c_gt
            || Ascii.eqb c c_quot || Ascii.eqb c c_apos) eqn:Hc; cbn [negb andb].
  - split; [|discriminate]. intro H. exfalso.
    apply (f_equal String.length) in H. rewrite length_app_string in H.
    simpl in H. pose proof (entity_of_special c Hc).
    pose proof (escape_each_length s). lia.
  - rewrite (entity_of_plain c Hc). simpl. rewrite <- IH.
    split; [now intros [= ->]|now intros ->].
Qed.

Section EscapeHtml.

Context {P : Platform}.

(** X12. [escapeHtml] loses nothing: two different texts never give the
    same markup, the first character the markup stands for is the first
    character of the text, and the markup is the text itself exactly when
    the text has none of the five characters. *)
Theorem escapeHtml_faithful :
  (forall a b : string, escapeHtml (JStr a) = escapeHtml (JStr b) -> a = b)
  /\ (forall (c : ascii) (t : string),
         exists rest, decode_head (escapeHtml (JStr (String c t))) = Some (c, rest)
                      /\ rest = escapeHtml (JStr t))
  /\ (forall s : string, escapeHtml (JStr s) = s <-> plain_text s = true).
Proof.
  split; [|split].
  - intros a b. rewrite !escapeHtml_escape_each. apply escape_each_injective.
  - intros c t. rewrite !escapeHtml_escape_each. eexists. split.
    + simpl. apply decode_head_entity.
    + reflexivity.
  - intro s. rewrite escapeHtml_escape_each. apply escape_each_plain.
Qed.

End EscapeHtml.

(** ** The edges of the refresh report *)

Section Report.

Context {P : Platform}.




End Report.

(** ** The settings across a reload *)

Section Reload.

Context {P : Platform}.

Lemma updateScannerUI_keeps_settings (s : State) :
  bprop (dom (fst (updateScannerUI s))) scannerMode checked
  = bprop (dom s) scannerMode checked
  /\ sprop (dom (fst (updateScannerUI s))) scannerDelayInput value
     = sprop (dom s) scannerDelayInput value.
Proof.
  unfold updateScannerUI, bind, gets.
  destruct (has scannerMode s), (has scannerDelay s); cbn [negb orb];
    try (split; reflexivity).
  cbv beta iota. destruct (has scannerDelayInput s); split; reflexivity.
Qed.

End Reload.

(** ** The preview and the save button *)

Section Preview.

Context {P : Platform}.


Lemma step_Response_lookup (rid : positive) (o : outcome) (s : State) :
  find_key rid (awaiting s) = Some InLookup ->
  step (Response rid o) s
  = fst (doLookup_resume o (set_awaiting (drop_key rid (awaiting s)) s)).
Proof.
  intro H. unfold step, handle, bind, gets. rewrite H. reflexivity.
Qed.

(** X16. Only the response to a lookup enables the save button: once the
    button is disabled, every event leaves it disabled, except the
    response to a pending lookup that is a success and whose body has a
    book and no error. *)
Theorem save_enabled_only_by_lookup (ev : event) (s : State) :
  save_off s ->
  save_off (step ev s)
  \/ exists (rid : positive) (r : response),
       ev = Response rid (Responded r)
       /\ find_key rid (awaiting s) = Some InLookup
       /\ res_ok r = true
       /\ truthy (prop (apiPost_data r) "error") = false
       /\ truthy (prop (apiPost_data r) "book") = true.
Proof.
  intro Hs.
  destruct ev;
    try (left; apply save_stays_disabled; [exact Hs|intros; discriminate]).
  destruct (find_key rid (awaiting s)) as [who|] eqn:Hw.
  - destruct who.
    + rewrite (step_Response_lookup rid o s Hw).
      destruct (lookup_enables_only_with_book o
                  (set_awaiting (drop_key rid (awaiting s)) s) Hs)
        as [H|[r [-> [H1 [H2 H3]]]]].
      * now left.
      * right. exists rid, r. repeat split; assumption.
    + left. apply save_stays_disabled; [exact Hs|].
      intros rid' o' [= <- <-]. rewrite Hw. discriminate.
    + left. apply save_stays_disabled; [exact Hs|].
      intros rid' o' [= <- <-]. rewrite Hw. discriminate.
  - left. apply save_stays_disabled; [exact Hs|].
    intros rid' o' [= <- <-]. rewrite Hw. discriminate.
Qed.


End Preview.


Lemma save_enabled_only_by_lookup_witness :
  save_off looking_up
  /\ (save_off (step0 (Response 1%positive (Responded not_found)) looking_up)
      \/ exists (rid : positive) (r : response),
           Response 1%positive (Responded not_found) = Response rid (Responded r)
           /\ find_key rid (awaiting looking_up) = Some InLookup
           /\ res_ok r = true
           /\ truthy (prop (@apiPost_data r) "error") = false
           /\ truthy (prop (@apiPost_data r) "book") = true).
Proof.
  split; [reflexivity|].
  exact (@save_enabled_only_by_lookup chrome
           (Response 1%positive (Responded not_found)) looking_up eq_refl).
Defined.


(** ** cookies.js *)

Section CookieFile.

Import Cookies.

Ltac each_byte a := destruct a as [[] [] [] [] [] [] [] []].

Lemma semicolon_eqb (a : ascii) : Ascii.eqb ";" a = is_char a 59.
Proof. each_byte a; reflexivity. Qed.

Lemma equals_eqb (a : ascii) : Ascii.eqb "=" a = is_char a 61.
Proof. each_byte a; reflexivity. Qed.

Lemma is_char_eqb (a b : ascii) : is_char a (code_of b) = Ascii.eqb a b.
Proof.
  unfold is_char, code_of. destruct (Ascii.eqb_spec a b) as [->|Hn].
  - apply N.eqb_refl.
  - apply N.eqb_neq. intro H. apply Hn.
    rewrite <- (ascii_N_embedding a), <- (ascii_N_embedding b), H. reflexivity.
Qed.

Lemma unreserved_low (a : ascii) :
  unreserved a = true ->
  N.ltb (code_of a) 128 = true /\ is_char a 37 = false
  /\ is_char a 59 = false /\ is_char a 61 = false.
Proof. each_byte a; vm_compute; intro H; first [discriminate H | repeat split]. Qed.

Lemma percent_byte (a : ascii) :
  digit_val 16 (hex_upper (code_of a / 16)) = Some (code_of a / 16)%N
  /\ digit_val 16 (hex_upper (code_of a mod 16)) = Some (code_of a mod 16)%N
  /\ ascii_of_N (16 * (code_of a / 16) + code_of a mod 16) = a.
Proof. each_byte a; vm_compute; repeat split. Qed.

Lemma percent_token (a : ascii) : token (percent a) = true.
Proof. each_byte a; reflexivity. Qed.

Lemma token_app (a b : string) : token (a ++ b) = token a && token b.
Proof.
  induction a as [|c a IH]; simpl; [reflexivity|].
  rewrite IH, !andb_assoc. reflexivity.
Qed.

Lemma cookie_name_token (s : string) : cookie_name s = true -> token s = true.
Proof. unfold cookie_name. intro H. apply andb_prop in H as [_ H]. exact H. Qed.

Lemma token_no_semicolon (s : string) : token s = true -> no_semicolon s = true.
Proof.
  induction s as [|c s IH]; simpl; [reflexivity|].
  intro H. apply andb_prop in H as [H Ht]. apply andb_prop in H as [H _].
  rewrite H, (IH Ht). reflexivity.
Qed.

Lemma no_semicolon_app (a b : string) :
  no_semicolon (a ++ b) = no_semicolon a && no_semicolon b.
Proof.
  induction a as [|c a IH]; simpl; [reflexivity|].
  rewrite IH, andb_assoc. reflexivity.
Qed.

Lemma encodeURIComponent_token (s : string) : token (encodeURIComponent s) = true.
Proof.
  induction s as [|a s IH]; simpl; [reflexivity|].
  rewrite token_app, IH, andb_true_r.
  destruct (unreserved a) eqn:U; [|apply percent_token].
  destruct (unreserved_low a U) as [_ [_ [H1 H2]]].
  simpl. rewrite H1, H2. reflexivity.
Qed.

(** The first pass undoes the escapes of [encodeURIComponent]. *)
Lemma percent_decode_encode (s : string) :
  percent_decode (encodeURIComponent s) = Some (map tag (list_ascii_of_string s)).
Proof.
  induction s as [|a s IH]; [reflexivity|].
  cbn [encodeURIComponent list_ascii_of_string map].
  destruct (unreserved a) eqn:U.
  - destruct (unreserved_low a U) as [_ [H _]].
    cbn [append percent_decode]. rewrite H, IH. unfold tag. rewrite U. reflexivity.
  - destruct (percent_byte a) as [H1 [H2 H3]].
    unfold percent. cbn [append percent_decode].
    replace (is_char (ascii_of_N 37) 37) with true by reflexivity.
    rewrite H1, H2, H3, IH. unfold tag. rewrite U. reflexivity.
Qed.

Lemma between_high (lo hi : N) (a : ascii) :
  N.ltb (code_of a) 128 = true -> N.leb 128 lo = true -> between lo hi a = false.
Proof.
  intros H1 H2. unfold between.
  apply N.ltb_lt in H1. apply N.leb_le in H2.
  replace (N.leb lo (code_of a)) with false; [reflexivity|].
  symmetry. apply N.leb_gt. lia.
Qed.

Lemma unreserved_between (lo hi : N) (a : ascii) :
  unreserved a = true -> N.leb 128 lo = true -> between lo hi a = false.
Proof. intros U. apply between_high. apply (unreserved_low a U). Qed.

(** What the second pass gives back is the bytes it was given. *)
Lemma utf8_check_bytes (n : nat) :
  forall l r, (length l <= n)%nat -> utf8_check l = Some r -> r = map snd l.
Proof.
  induction n as [|n IH]; intros l r Hl H.
  - destruct l; [|simpl in Hl; lia]. simpl in H. injection H as <-. reflexivity.
  - destruct l as [|[t a] l]; [simpl in H; injection H as <-; reflexivity|].
    simpl in Hl.
    assert (Hone : forall l', (length l' <= n)%nat ->
              forall f (r0 : list ascii), option_map f (utf8_check l') = Some r0 ->
              exists q, r0 = f q /\ q = map snd l').
    { intros l' Hl' f r0 H0. destruct (utf8_check l') as [q|] eqn:Q; [|discriminate H0].
      simpl in H0. exists q. split; [congruence|]. apply (IH l' q Hl' Q). }
    cbn [utf8_check] in H. destruct t.
    + destruct (N.ltb (code_of a) 128).
      { destruct (Hone l ltac:(lia) _ _ H) as [q [-> ->]]. reflexivity. }
      destruct (between 194 223 a).
      { destruct l as [|[[] b] l1]; try discriminate H.
        destruct (between 128 191 b); [|discriminate H].
        simpl in Hl.
        destruct (Hone l1 ltac:(lia) _ _ H) as [q [-> ->]]. reflexivity. }
      destruct (between 224 239 a).
      { destruct l as [|[[] b] [|[[] c] l2]]; try discriminate H.
        match type of H with (if ?c then _ else _) = _ => destruct c end;
          [|discriminate H].
        simpl in Hl.
        destruct (Hone l2 ltac:(lia) _ _ H) as [q [-> ->]]. reflexivity. }
      destruct (between 240 244 a); [|discriminate H].
      destruct l as [|[[] b] [|[[] c] [|[[] d] l3]]]; try discriminate H.
      match type of H with (if ?c then _ else _) = _ => destruct c end;
        [|discriminate H].
      simpl in Hl.
      destruct (Hone l3 ltac:(lia) _ _ H) as [q [-> ->]]. reflexivity.
    + destruct (Hone l ltac:(lia) _ _ H) as [q [-> ->]]. reflexivity.
Qed.

(** The second pass does not tell an unescaped ASCII byte from an escaped
    one. *)
Lemma utf8_check_tag (n : nat) :
  forall l, (length l <= n)%nat ->
    utf8_check (map tag l) = utf8_check (map (pair true) l).
Proof.
  induction n as [|n IH]; intros l Hl.
  - destruct l; [reflexivity|simpl in Hl; lia].
  - destruct l as [|a l]; [reflexivity|]. simpl in Hl.
    cbn [map]. unfold tag at 1.
    destruct (unreserved a) eqn:Ua; cbn [negb utf8_check].
    + destruct (unreserved_low a Ua) as [-> _]. rewrite IH by lia. reflexivity.
    + destruct (N.ltb (code_of a) 128); [rewrite IH by lia; reflexivity|].
      destruct (between 194 223 a).
      { destruct l as [|b l1]; [reflexivity|]. simpl in Hl. cbn [map]. unfold tag at 1.
        destruct (unreserved b) eqn:Ub; cbn [negb].
        - rewrite (unreserved_between 128 191 b Ub eq_refl). reflexivity.
        - rewrite IH by lia. reflexivity. }
      destruct (between 224 239 a).
      { destruct l as [|b [|c l2]]; cbn [map]; unfold tag.
        - reflexivity.
        - destruct (unreserved b); reflexivity.
        - simpl in Hl. fold (tag) in *. fold (map tag l2).
          destruct (unreserved b) eqn:Ub; cbn [negb].
          + destruct (is_char a 224);
              [rewrite (unreserved_between 160 _ b Ub eq_refl)
              |rewrite (unreserved_between 128 _ b Ub eq_refl)]; reflexivity.
          + destruct (unreserved c) eqn:Uc; cbn [negb].
            * rewrite (unreserved_between 128 191 c Uc eq_refl), andb_false_r.
              reflexivity.
            * change (map (fun a0 => (negb (unreserved a0), a0)) l2) with (map tag l2).
              rewrite IH by lia. reflexivity. }
      destruct (between 240 244 a); [|reflexivity].
      destruct l as [|b [|c [|d l3]]]; cbn [map]; unfold tag.
      * reflexivity.
      * destruct (unreserved b); reflexivity.
      * destruct (unreserved b), (unreserved c); reflexivity.
      * simpl in Hl.
        destruct (unreserved b) eqn:Ub; cbn [negb].
        { destruct (is_char a 240);
            [rewrite (unreserved_between 144 _ b Ub eq_refl)
            |rewrite (unreserved_between 128 _ b Ub eq_refl)]; reflexivity. }
        destruct (unreserved c) eqn:Uc; cbn [negb].
        { rewrite (unreserved_between 128 191 c Uc eq_refl), andb_false_r.
          reflexivity. }
        destruct (unreserved d) eqn:Ud; cbn [negb].
        { rewrite (unreserved_between 128 191 d Ud eq_refl), andb_false_r.
          reflexivity. }
        change (map (fun a0 => (negb (unreserved a0), a0)) l3) with (map tag l3).
        rewrite IH by lia. reflexivity.
Qed.

Lemma decode_encode (msg s : string) :
  well_formed s = true ->
  decodeURIComponent msg (encodeURIComponent s) = inr s.
Proof.
  unfold well_formed, decodeURIComponent. intro W.
  rewrite percent_decode_encode.
  rewrite (utf8_check_tag _ _ (le_n _)).
  destruct (utf8_check (map (pair true) (list_ascii_of_string s))) as [r|] eqn:R;
    [|discriminate W].
  rewrite (utf8_check_bytes _ _ _ (le_n _) R), map_map. cbn [snd].
  rewrite map_id, string_of_list_ascii_of_string. reflexivity.
Qed.

(** The search in the text of [document.cookie]. *)
Lemma append_empty (s : string) : s ++ EmptyString = s.
Proof. induction s as [|a s IH]; simpl; [|rewrite IH]; reflexivity. Qed.

Lemma document_cookie_cons (kv : string * string) (t : list (string * string)) :
  document_cookie (kv :: t) = fst kv ++ "=" ++ snd kv ++ rest_text t.
Proof.
  unfold document_cookie. cbn [map join].
  destruct t as [|kv' t].
  - cbn [map rest_text]. rewrite append_empty. reflexivity.
  - cbn [map rest_text]. unfold document_cookie. cbn [map].
    rewrite !app_assoc_string. reflexivity.
Qed.

Lemma starts_with_name (name k rest : string) :
  token name = true -> token k = true ->
  starts_with (name ++ "=") (k ++ "=" ++ rest) = String.eqb k name.
Proof.
  revert k. induction name as [|a name IH]; intros [|b k] Hn Hk;
    cbn [append starts_with String.eqb token] in *.
  - rewrite Ascii.eqb_refl. reflexivity.
  - apply andb_prop in Hk as [Hk _]. apply andb_prop in Hk as [_ Hk].
    rewrite equals_eqb. destruct (is_char b 61); [discriminate Hk|reflexivity].
  - apply andb_prop in Hn as [Hn _]. apply andb_prop in Hn as [_ Hn].
    rewrite Ascii.eqb_sym, equals_eqb.
    destruct (is_char a 61); [discriminate Hn|reflexivity].
  - apply andb_prop in Hn as [_ Hn]. apply andb_prop in Hk as [_ Hk].
    rewrite (IH k Hn Hk), (Ascii.eqb_sym a b). reflexivity.
Qed.

Lemma drop_chars_app (p r : string) : drop_chars (String.length p) (p ++ r) = r.
Proof. induction p as [|a p IH]; simpl; [destruct r|]; auto. Qed.

Lemma capture_value (v : string) (t : list (string * string)) :
  no_semicolon v = true -> capture (v ++ rest_text t) = v.
Proof.
  induction v as [|a v IH]; simpl; intro H.
  - destruct t; reflexivity.
  - apply andb_prop in H as [Ha Hv].
    destruct (is_char a 59); [discriminate Ha|]. rewrite (IH Hv). reflexivity.
Qed.

Lemma starts_with_separator (name : string) (b : ascii) (s : string) :
  is_char b 59 = false -> starts_with (after_separator name) (String b s) = false.
Proof.
  intro H. unfold after_separator.
  change ("; " ++ name ++ "=") with (String ";" (String " " (name ++ "="))).
  cbn [starts_with]. rewrite semicolon_eqb, H. reflexivity.
Qed.

Lemma scan_through (name e rest : string) :
  no_semicolon e = true -> scan name (e ++ rest) = scan name rest.
Proof.
  induction e as [|a e IH]; cbn [append no_semicolon]; intro H; [reflexivity|].
  apply andb_prop in H as [Ha He].
  cbn [scan]. rewrite starts_with_separator; [apply (IH He)|].
  destruct (is_char a 59); [discriminate Ha|reflexivity].
Qed.

Lemma scan_rest (name : string) (t : list (string * string)) :
  token name = true -> forallb cookie_ok t = true ->
  scan name (rest_text t) = cookie_of name t.
Proof.
  intros Hn. induction t as [|[k v] t IH]; intro Ht; [reflexivity|].
  cbn [forallb] in Ht. apply andb_prop in Ht as [Hkv Ht].
  unfold cookie_ok in Hkv. cbn [fst snd] in Hkv. apply andb_prop in Hkv as [Hk Hv].
  apply cookie_name_token in Hk.
  cbn [rest_text cookie_of]. rewrite document_cookie_cons. cbn [fst snd].
  change ("; " ++ k ++ "=" ++ v ++ rest_text t)
    with (String ";" (String " " (k ++ "=" ++ v ++ rest_text t))).
  cbn [scan].
  assert (S0 : starts_with (after_separator name)
                 (String ";" (String " " (k ++ "=" ++ v ++ rest_text t)))
               = String.eqb k name).
  { unfold after_separator.
    change ("; " ++ name ++ "=") with (String ";" (String " " (name ++ "="))).
    cbn [starts_with]. rewrite !Ascii.eqb_refl. cbn [andb].
    apply starts_with_name; assumption. }
  rewrite S0. clear S0.
  destruct (String.eqb_spec k name) as [->|Hne].
  - unfold after_separator.
    change ("; " ++ name ++ "=") with (String ";" (String " " (name ++ "="))).
    cbn [String.length drop_chars].
    replace (name ++ "=" ++ v ++ rest_text t) with ((name ++ "=") ++ v ++ rest_text t)
      by (rewrite app_assoc_string; reflexivity).
    rewrite drop_chars_app, (capture_value v t Hv). reflexivity.
  - rewrite starts_with_separator by reflexivity.
    replace (k ++ "=" ++ v ++ rest_text t) with ((k ++ "=" ++ v) ++ rest_text t)
      by (rewrite !app_assoc_string; reflexivity).
    rewrite scan_through; [apply (IH Ht)|].
    rewrite no_semicolon_app. simpl. rewrite (token_no_semicolon k Hk), Hv. reflexivity.
Qed.

Lemma find_cookie_of (name : string) (jar : list (string * string)) :
  token name = true -> forallb cookie_ok jar = true ->
  find_cookie name (document_cookie jar) = cookie_of name jar.
Proof.
  intros Hn Hj. unfold find_cookie. destruct jar as [|[k v] t].
  - cbn. destruct name; reflexivity.
  - pose proof Hj as Hj'.
    cbn [forallb] in Hj. apply andb_prop in Hj as [Hkv Ht].
    unfold cookie_ok in Hkv. cbn [fst snd] in Hkv. apply andb_prop in Hkv as [Hk Hv].
  apply cookie_name_token in Hk.
    rewrite document_cookie_cons. cbn [fst snd cookie_of].
    rewrite (starts_with_name name k _ Hn Hk).
    destruct (String.eqb_spec k name) as [->|Hne].
    + replace (name ++ "=" ++ v ++ rest_text t) with ((name ++ "=") ++ v ++ rest_text t)
        by (rewrite app_assoc_string; reflexivity).
      rewrite drop_chars_app, (capture_value v t Hv). reflexivity.
    + replace (k ++ "=" ++ v ++ rest_text t) with ((k ++ "=" ++ v) ++ rest_text t)
        by (rewrite !app_assoc_string; reflexivity).
      rewrite scan_through; [apply (scan_rest name t Hn Ht)|].
      rewrite no_semicolon_app. simpl. rewrite (token_no_semicolon k Hk), Hv. reflexivity.
Qed.

Lemma cookie_of_store (k v : string) (jar : list (string * string)) :
  cookie_of k (store k v jar) = Some v.
Proof.
  induction jar as [|[k' v'] t IH]; simpl.
  - rewrite String.eqb_refl. reflexivity.
  - destruct (String.eqb k' k) eqn:Hk; simpl.
    + rewrite String.eqb_refl. reflexivity.
    + rewrite Hk. exact IH.
Qed.

Lemma store_ok (k v : string) (jar : list (string * string)) :
  cookie_ok (k, v) = true -> forallb cookie_ok jar = true ->
  forallb cookie_ok (store k v jar) = true.
Proof.
  intros Hkv. induction jar as [|[k' v'] t IH]; simpl; intro H.
  - rewrite Hkv. reflexivity.
  - apply andb_prop in H as [H1 H2].
    destruct (String.eqb k' k); simpl.
    + rewrite Hkv, H2. reflexivity.
    + rewrite H1, (IH H2). reflexivity.
Qed.

Lemma capture_first (p rest : string) :
  no_semicolon p = true -> capture (p ++ String ";" rest) = p.
Proof.
  induction p as [|a p IH]; simpl; intro H; [reflexivity|].
  apply andb_prop in H as [Ha Hp].
  destruct (is_char a 59); [discriminate Ha|]. rewrite (IH Hp). reflexivity.
Qed.

Lemma before_after_eq (k v : string) :
  token k = true ->
  before_eq (k ++ String "=" v) = k /\ after_eq (k ++ String "=" v) = v.
Proof.
  induction k as [|a k IH]; cbn [append before_eq after_eq token]; intro H;
    [split; reflexivity|].
  apply andb_prop in H as [H Hk]. apply andb_prop in H as [_ Ha].
  destruct (is_char a 61); [discriminate Ha|].
  destruct (IH Hk) as [-> ->]. split; reflexivity.
Qed.

Lemma pair_of_setCookie (name value : string) (days : Z) :
  token name = true ->
  pair_of (setCookie name value days) = (name, encodeURIComponent value).
Proof.
  intro Hn. unfold pair_of, setCookie.
  assert (C : capture (name ++ "=" ++ encodeURIComponent value ++ "; path=/; SameSite=Lax"
                 ++ (if Z.eqb days 0 then EmptyString
                     else "; max-age=" ++ Z_toString (days * 86400)))
              = name ++ "=" ++ encodeURIComponent value).
  { replace (name ++ "=" ++ encodeURIComponent value ++ "; path=/; SameSite=Lax"
                 ++ (if Z.eqb days 0 then EmptyString
                     else "; max-age=" ++ Z_toString (days * 86400)))
      with ((name ++ "=" ++ encodeURIComponent value)
            ++ String ";" (" path=/; SameSite=Lax"
                 ++ (if Z.eqb days 0 then EmptyString
                     else "; max-age=" ++ Z_toString (days * 86400))))
      by (rewrite !app_assoc_string; reflexivity).
    apply capture_first. rewrite no_semicolon_app. simpl.
    rewrite (token_no_semicolon _ Hn),
      (token_no_semicolon _ (encodeURIComponent_token value)). reflexivity. }
  rewrite C.
  change (name ++ "=" ++ encodeURIComponent value)
    with (name ++ String "=" (encodeURIComponent value)).
  destruct (before_after_eq name (encodeURIComponent value) Hn) as [-> ->].
  reflexivity.
Qed.

(** A percent sign with no two hexadecimal digits after it stops the first
    pass, whatever comes before it. *)
Lemma percent_not_hex : digit_val 16 (ascii_of_N 37) = None.
Proof. reflexivity. Qed.

Lemma percent_decode_bad (n : nat) :
  forall t s, (String.length t <= n)%nat -> two_hex s = false ->
    percent_decode (t ++ String (ascii_of_N 37) s) = None.
Proof.
  induction n as [|n IH]; intros t s Hl Hs.
  - destruct t; [|simpl in Hl; lia].
    cbn [append percent_decode]. replace (is_char (ascii_of_N 37) 37) with true by reflexivity.
    destruct s as [|h [|l s]]; try reflexivity.
    cbn [two_hex] in Hs. destruct (digit_val 16 h), (digit_val 16 l);
      first [discriminate Hs | reflexivity].
  - destruct t as [|a t].
    + apply (IH EmptyString s); [simpl; lia|exact Hs].
    + simpl in Hl. cbn [append percent_decode].
      destruct (is_char a 37) eqn:Ha.
      * destruct t as [|h [|l t]].
        { cbn [append]. destruct s as [|x s]; [reflexivity|].
          rewrite percent_not_hex. reflexivity. }
        { cbn [append]. rewrite percent_not_hex.
          destruct (digit_val 16 h); reflexivity. }
        { cbn [append]. destruct (digit_val 16 h); [|reflexivity].
          destruct (digit_val 16 l); [|reflexivity].
          simpl in Hl. rewrite (IH t s ltac:(lia) Hs). reflexivity. }
      * rewrite (IH t s ltac:(lia) Hs). reflexivity.
Qed.

Lemma decode_plain (msg s : string) :
  no_percent s = true -> decodeURIComponent msg s = inr s.
Proof.
  intro H. unfold decodeURIComponent.
  assert (P : percent_decode s = Some (map (pair false) (list_ascii_of_string s))).
  { induction s as [|a s IH]; [reflexivity|].
    simpl in H. apply andb_prop in H as [Ha Hs].
    cbn [percent_decode list_ascii_of_string map].
    destruct (is_char a 37); [discriminate Ha|]. rewrite (IH Hs). reflexivity. }
  rewrite P. clear P H.
  assert (U : forall l, utf8_check (map (pair false) l) = Some l).
  { induction l as [|a l IH]; [reflexivity|]. cbn [map utf8_check]. rewrite IH. reflexivity. }
  rewrite U, string_of_list_ascii_of_string. reflexivity.
Qed.

(** X18. [getCookie] finds the cookie by its whole name: on the text the
    browser gives for its cookies, it decodes the value of the first cookie
    with exactly that name, and returns [null] when there is none. A cookie
    whose name only ends with the name asked for is not taken. *)
Theorem getCookie_finds (msg name : string) (jar : list (string * string)) :
  token name = true -> forallb cookie_ok jar = true ->
  getCookie msg name (document_cookie jar) =
    match cookie_of name jar with
    | Some m => ebind (decodeURIComponent msg m) (fun v => inr (Some v))
    | None => inr None
    end.
Proof.
  intros Hn Hj. unfold getCookie. rewrite (find_cookie_of name jar Hn Hj). reflexivity.
Qed.

Lemma getCookie_finds_witness :
  getCookie "URI malformed" "delay"
    (document_cookie [("scanner_delay", "250"); ("delay", "2%2050")])
  = inr (Some "2 50").
Proof.
  rewrite (getCookie_finds "URI malformed" "delay"
             [("scanner_delay", "250"); ("delay", "2%2050")] eq_refl eq_refl).
  reflexivity.
Defined.

(** X19. What [setCookie] writes, [getCookie] reads back: the browser
    takes the name and the encoded value off the assigned text, and after
    it has stored them [getCookie] returns the value that was set, whatever
    characters it has and whatever other cookies there are. *)
Theorem cookie_round_trip (msg name value : string) (days : Z)
    (jar : list (string * string)) :
  kept name value days = true -> well_formed value = true ->
  forallb cookie_ok jar = true ->
  pair_of (setCookie name value days) = (name, encodeURIComponent value)
  /\ getCookie msg name
       (document_cookie
          (store (fst (pair_of (setCookie name value days)))
                 (snd (pair_of (setCookie name value days))) jar))
     = inr (Some value).
Proof.
  intros Hk Hv Hj. unfold kept in Hk.
  apply andb_prop in Hk as [Hk _]. apply andb_prop in Hk as [Hc _].
  pose proof (cookie_name_token name Hc) as Hn.
  rewrite (pair_of_setCookie name value days Hn). split; [reflexivity|].
  cbn [fst snd]. unfold getCookie.
  rewrite find_cookie_of, cookie_of_store; [|exact Hn|].
  - rewrite (decode_encode msg value Hv). reflexivity.
  - apply store_ok; [|exact Hj]. unfold cookie_ok. cbn [fst snd].
    rewrite Hc, (token_no_semicolon _ (encodeURIComponent_token value)). reflexivity.
Qed.

Lemma cookie_round_trip_witness :
  pair_of (setCookie "scanner_delay" "a=b; 50%" 180)
    = ("scanner_delay", encodeURIComponent "a=b; 50%")
  /\ getCookie "URI malformed" "scanner_delay"
       (document_cookie
          (store (fst (pair_of (setCookie "scanner_delay" "a=b; 50%" 180)))
                 (snd (pair_of (setCookie "scanner_delay" "a=b; 50%" 180)))
                 [("scanner_mode", "1"); ("scanner_delay", "250")]))
     = inr (Some "a=b; 50%").
Proof.
  apply (cookie_round_trip "URI malformed" "scanner_delay" "a=b; 50%" 180
           [("scanner_mode", "1"); ("scanner_delay", "250")]); reflexivity.
Defined.

(** X20. A cookie that the page did not write: [getCookie] returns a value
    with no percent sign as it is, and throws a [URIError] when the value
    has a percent sign that is not followed by two hexadecimal digits. *)
Theorem getCookie_foreign_value (msg name m : string) (jar : list (string * string)) :
  token name = true -> forallb cookie_ok jar = true -> cookie_of name jar = Some m ->
  (no_percent m = true ->
     getCookie msg name (document_cookie jar) = inr (Some m))
  /\ (forall t s, m = t ++ String "%" s -> two_hex s = false ->
        getCookie msg name (document_cookie jar) = inl (URIError msg)).
Proof.
  intros Hn Hj Hm. unfold getCookie. rewrite (find_cookie_of name jar Hn Hj), Hm. split.
  - intro H. rewrite (decode_plain msg m H). reflexivity.
  - intros t s -> Hs. unfold decodeURIComponent.
    change (String "%" s) with (String (ascii_of_N 37) s).
    rewrite (percent_decode_bad _ t s (le_n _) Hs). reflexivity.
Qed.

Lemma getCookie_foreign_value_witness :
  (no_percent "50%" = true ->
     getCookie "URI malformed" "scanner_delay"
       (document_cookie [("scanner_mode", "1"); ("scanner_delay", "50%")])
     = inr (Some "50%"))
  /\ (forall t s, "50%" = t ++ String "%" s -> two_hex s = false ->
        getCookie "URI malformed" "scanner_delay"
          (document_cookie [("scanner_mode", "1"); ("scanner_delay", "50%")])
        = inl (URIError "URI malformed")).
Proof.
  apply (getCookie_foreign_value "URI malformed" "scanner_delay" "50%"
           [("scanner_mode", "1"); ("scanner_delay", "50%")]); reflexivity.
Defined.

End CookieFile.

(** ** The settings across a reload *)

Section PersistedSettings.

Import Cookies.

Context {P : Platform}.

Variable msg : string.

Lemma getCookie_after_store (name v : string) (jar : list (string * string)) :
  cookie_name name = true -> well_formed v = true ->
  forallb cookie_ok jar = true ->
  Cookies.getCookie msg name
    (document_cookie (store name (encodeURIComponent v) jar))
  = inr (Some v).
Proof.
  intros Hc Hv Hj. unfold Cookies.getCookie.
  rewrite find_cookie_of, cookie_of_store.
  - rewrite (decode_encode msg v Hv). reflexivity.
  - apply cookie_name_token, Hc.
  - apply store_ok; [|exact Hj]. unfold cookie_ok. cbn [fst snd].
    rewrite Hc, (token_no_semicolon _ (encodeURIComponent_token v)). reflexivity.
Qed.

Lemma cookie_of_store_other (name k v : string) (jar : list (string * string)) :
  String.eqb k name = false ->
  cookie_of name (store k v jar) = cookie_of name jar.
Proof.
  intro Hk. induction jar as [|[k' v'] t IH]; cbn [store cookie_of].
  - rewrite Hk. reflexivity.
  - destruct (String.eqb_spec k' k) as [->|Hne]; cbn [cookie_of].
    + rewrite Hk. reflexivity.
    + rewrite IH. reflexivity.
Qed.

Lemma getCookie_other_after_store (name k v : string) (jar : list (string * string)) :
  String.eqb k name = false -> token name = true -> cookie_name k = true ->
  forallb cookie_ok jar = true ->
  Cookies.getCookie msg name
    (document_cookie (store k (encodeURIComponent v) jar))
  = Cookies.getCookie msg name (document_cookie jar).
Proof.
  intros Hk Hn Hc Hj. unfold Cookies.getCookie.
  rewrite !find_cookie_of, cookie_of_store_other; try assumption; [reflexivity|].
  apply store_ok; [|exact Hj]. unfold cookie_ok. cbn [fst snd].
  rewrite Hc, (token_no_semicolon _ (encodeURIComponent_token v)). reflexivity.
Qed.

Lemma readable_getCookie (name : string) (jar : list (string * string)) :
  Persisted.readable name jar = true -> token name = true ->
  forallb cookie_ok jar = true ->
  exists mode, Cookies.getCookie msg name (document_cookie jar) = inr mode.
Proof.
  intros Hr Hn Hj. unfold Cookies.getCookie. rewrite (find_cookie_of name jar Hn Hj).
  unfold Persisted.readable in Hr.
  destruct (cookie_of name jar) as [m|]; [|exists None; reflexivity].
  unfold Persisted.decodes in Hr. unfold decodeURIComponent.
  destruct (percent_decode m) as [l|]; [|discriminate Hr].
  destruct (utf8_check l) as [bytes|]; [|discriminate Hr].
  eexists. reflexivity.
Qed.

Lemma malformed_getCookie (name m t x : string) (jar : list (string * string)) :
  token name = true -> forallb cookie_ok jar = true ->
  cookie_of name jar = Some m -> m = t ++ String "%" x -> two_hex x = false ->
  Cookies.getCookie msg name (document_cookie jar) = inl (URIError msg).
Proof.
  intros Hn Hj Hm -> Hx. unfold Cookies.getCookie.
  rewrite (find_cookie_of name jar Hn Hj), Hm. unfold decodeURIComponent.
  change (String "%" x) with (String (ascii_of_N 37) x).
  rewrite (percent_decode_bad _ t x (le_n _) Hx). reflexivity.
Qed.

(** The load listener, step by step. *)
Lemma load_steps (s : State) :
  Persisted.load msg s
  = match Cookies.getCookie msg COOKIE_SCANNER_MODE (document_cookie (cookies s)) with
    | inl e => (fst (clearUI s), inl e)
    | inr mode =>
        match Cookies.getCookie msg COOKIE_SCANNER_DELAY
                (document_cookie (cookies s)) with
        | inl e => (Persisted.mode_restored mode (fst (clearUI s)), inl e)
        | inr delay =>
            updateScannerUI
              (Persisted.delay_restored delay
                 (Persisted.mode_restored mode (fst (clearUI s))))
        end
    end.
Proof.
  assert (Hc : cookies (fst (clearUI s)) = cookies s) by reflexivity.
  rewrite <- Hc.
  unfold Persisted.load. unfold bind at 1.
  rewrite (surjective_pairing (clearUI s)), (total_unit clearUI total_clearUI s).
  cbn [fst snd]. generalize (fst (clearUI s)). clear. intro sc.
  unfold bind at 1. unfold Persisted.getCookie at 1.
  destruct (Cookies.getCookie msg COOKIE_SCANNER_MODE (document_cookie (cookies sc)))
    as [e|mode]; [reflexivity|].
  unfold bind at 1. unfold gets at 1.
  assert (H1 : forall k : unit -> M unit,
             ((match mode with
               | Some m =>
                   if has scannerMode sc
                   then setB scannerMode checked (String.eqb m "1")
                   else ret tt
               | None => ret tt
               end ;; k tt) sc)
             = k tt (Persisted.mode_restored mode sc)).
  { intro k. unfold Persisted.mode_restored.
    destruct mode as [m|]; [destruct (has scannerMode sc)|]; reflexivity. }
  rewrite (H1 (fun _ => _)). clear H1.
  assert (Hc : cookies (Persisted.mode_restored mode sc) = cookies sc).
  { unfold Persisted.mode_restored.
    destruct mode as [m|]; [destruct (has scannerMode sc)|]; reflexivity. }
  rewrite <- Hc. generalize (Persisted.mode_restored mode sc). clear. intro sm.
  unfold bind at 1. unfold Persisted.getCookie at 1.
  destruct (Cookies.getCookie msg COOKIE_SCANNER_DELAY (document_cookie (cookies sm)))
    as [e|delay]; [reflexivity|].
  unfold bind at 1. unfold gets at 1.
  unfold Persisted.delay_restored.
  destruct delay as [d|]; [destruct (nonempty d && has scannerDelayInput sm)|];
    reflexivity.
Qed.

Lemma restored_settings (mode delay : option string) (s : State) :
  bprop (dom (Persisted.delay_restored delay (Persisted.mode_restored mode s)))
    scannerMode checked
  = bprop (dom (Persisted.mode_restored mode s)) scannerMode checked
  /\ sprop (dom (Persisted.mode_restored mode s)) scannerDelayInput value
     = sprop (dom s) scannerDelayInput value
  /\ has scannerDelayInput (Persisted.mode_restored mode s) = has scannerDelayInput s.
Proof.
  unfold Persisted.delay_restored, Persisted.mode_restored.
  destruct mode as [m|]; [destruct (has scannerMode s)|];
    (destruct delay as [d|]; [destruct (nonempty d && _)|]); repeat split.
Qed.

Lemma scannerMode_change_cookies (b : bool) (s : State) :
  has scannerMode s = true ->
  cookies (fst (Persisted.scannerMode_change b s))
  = store COOKIE_SCANNER_MODE (encodeURIComponent (if b then "1" else "0"))
      (cookies s).
Proof.
  intro H. unfold Persisted.scannerMode_change.
  rewrite (fst_bind _ _ s true) by (unfold gets; simpl; now rewrite H).
  cbn [gets fst].
  rewrite (fst_bind (setB scannerMode checked b) _ s tt) by reflexivity.
  rewrite (fst_bind (Persisted.setCookie _ _) _ _ tt) by reflexivity.
  rewrite updateScannerUI_cookies.
  destruct b; reflexivity.
Qed.

Lemma scannerDelayInput_change_cookies (v : string) (s : State) :
  has scannerDelayInput s = true ->
  cookies (fst (Persisted.scannerDelayInput_change v s))
  = if kept COOKIE_SCANNER_DELAY v 180
    then store COOKIE_SCANNER_DELAY (encodeURIComponent v) (cookies s)
    else cookies s.
Proof.
  intro H. unfold Persisted.scannerDelayInput_change.
  rewrite (fst_bind _ _ s true) by (unfold gets; simpl; now rewrite H).
  cbn [gets fst].
  rewrite (fst_bind (setS scannerDelayInput value v) _ s tt) by reflexivity.
  unfold Persisted.setCookie, modify. cbn [fst].
  rewrite (pair_of_setCookie COOKIE_SCANNER_DELAY v 180 eq_refl). cbn [fst snd].
  destruct (kept COOKIE_SCANNER_DELAY v 180); reflexivity.
Qed.

(** X14. The two settings survive a reload, with the cookies as the
    browser holds them. After the scanner-mode checkbox changed to [b], a
    page that loads with the cookies of that moment has its checkbox at
    [b]. After the delay changed to a text the browser keeps, the page that
    loads has that text in its delay input when the text is not empty, on
    condition that the [scanner_mode] cookie can be decoded. A delay too
    long for the browser leaves the cookies as they were. With a
    [scanner_mode] cookie that cannot be decoded the load listener throws
    a [URIError] before it reads the delay, and the checkbox and the delay
    input stay as the page has them. *)
Theorem settings_survive_reload (s : State) (d' : Dom) :
  forallb cookie_ok (cookies s) = true ->
  (forall b : bool,
      has scannerMode s = true -> present d' scannerMode = true ->
      bprop (dom (fst (Persisted.load msg
                         (init d' (cookies (fst (Persisted.scannerMode_change b s)))))))
        scannerMode checked = b)
  /\ (forall v : string,
         has scannerDelayInput s = true -> present d' scannerDelayInput = true ->
         kept COOKIE_SCANNER_DELAY v 180 = true -> well_formed v = true ->
         Persisted.readable COOKIE_SCANNER_MODE (cookies s) = true ->
         sprop (dom (fst (Persisted.load msg
                            (init d' (cookies
                                        (fst (Persisted.scannerDelayInput_change v s)))))))
           scannerDelayInput value
         = if nonempty v then v else sprop d' scannerDelayInput value)
  /\ (forall v : string,
         kept COOKIE_SCANNER_DELAY v 180 = false ->
         cookies (fst (Persisted.scannerDelayInput_change v s)) = cookies s)
  /\ (forall m t x : string,
         cookie_of COOKIE_SCANNER_MODE (cookies s) = Some m ->
         m = t ++ String "%" x -> two_hex x = false ->
         snd (Persisted.load msg (init d' (cookies s))) = inl (URIError msg)
         /\ bprop (dom (fst (Persisted.load msg (init d' (cookies s)))))
              scannerMode checked = bprop d' scannerMode checked
         /\ sprop (dom (fst (Persisted.load msg (init d' (cookies s)))))
              scannerDelayInput value = sprop d' scannerDelayInput value).
Proof.
  intro Hj. split; [|split; [|split]].
  - intros b Hs Hd. rewrite load_steps. cbn [cookies init].
    rewrite (scannerMode_change_cookies b s Hs).
    rewrite (getCookie_after_store COOKIE_SCANNER_MODE (if b then "1" else "0")
               (cookies s) eq_refl (ltac:(destruct b; reflexivity)) Hj).
    assert (Hp : has scannerMode
                   (fst (clearUI (init d'
                      (store COOKIE_SCANNER_MODE
                         (encodeURIComponent (if b then "1" else "0")) (cookies s)))))
                 = true) by exact Hd.
    revert Hp.
    generalize (fst (clearUI (init d'
      (store COOKIE_SCANNER_MODE (encodeURIComponent (if b then "1" else "0"))
         (cookies s))))).
    intros sc Hp.
    assert (Hm : bprop (dom (Persisted.mode_restored (Some (if b then "1" else "0")) sc))
                   scannerMode checked = b).
    { unfold Persisted.mode_restored. rewrite Hp. destruct b; reflexivity. }
    destruct (Cookies.getCookie msg COOKIE_SCANNER_DELAY _) as [e|delay].
    + exact Hm.
    + rewrite (proj1 (updateScannerUI_keeps_settings _)).
      rewrite (proj1 (restored_settings _ delay sc)). exact Hm.
  - intros v Hs Hd Hk Hv Hr. rewrite load_steps. cbn [cookies init].
    rewrite (scannerDelayInput_change_cookies v s Hs), Hk.
    assert (Hc : cookie_name COOKIE_SCANNER_DELAY = true) by reflexivity.
    rewrite (getCookie_other_after_store COOKIE_SCANNER_MODE COOKIE_SCANNER_DELAY v
               (cookies s) eq_refl eq_refl Hc Hj).
    destruct (readable_getCookie COOKIE_SCANNER_MODE (cookies s) Hr eq_refl Hj)
      as [mode ->].
    rewrite (getCookie_after_store COOKIE_SCANNER_DELAY v (cookies s) Hc Hv Hj).
    rewrite (proj2 (updateScannerUI_keeps_settings _)).
    assert (Hp : has scannerDelayInput
                   (fst (clearUI (init d'
                      (store COOKIE_SCANNER_DELAY (encodeURIComponent v) (cookies s)))))
                 = true) by exact Hd.
    assert (Hval : sprop (dom (fst (clearUI (init d'
                      (store COOKIE_SCANNER_DELAY (encodeURIComponent v) (cookies s))))))
                     scannerDelayInput value = sprop d' scannerDelayInput value)
      by reflexivity.
    revert Hp Hval.
    generalize (fst (clearUI (init d'
      (store COOKIE_SCANNER_DELAY (encodeURIComponent v) (cookies s))))).
    intros sc Hp Hval.
    destruct (restored_settings mode (Some v) sc) as [_ [H2 H3]].
    unfold Persisted.delay_restored. rewrite H3, Hp.
    destruct (nonempty v); cbn [andb].
    + reflexivity.
    + rewrite H2. exact Hval.
  - intros v Hk. unfold Persisted.scannerDelayInput_change, bind, gets.
    destruct (has scannerDelayInput s); [|reflexivity].
    unfold Persisted.setCookie, modify, setS. cbn [fst]. rewrite Hk. reflexivity.
  - intros m t x Hm Hmx Hx. rewrite load_steps. cbn [cookies init].
    rewrite (malformed_getCookie COOKIE_SCANNER_MODE m t x (cookies s)
               eq_refl Hj Hm Hmx Hx).
    repeat split.
Qed.

End PersistedSettings.

Lemma settings_survive_reload_witness :
  forallb Cookies.cookie_ok [("scanner_mode", "1"); ("theme", "dark%20blue")] = true
  /\ sprop
       (dom (fst (@Persisted.load chrome "URI malformed"
                    (init (page true "250")
                       (cookies
                          (fst (Persisted.scannerDelayInput_change "300 ms"
                                  (init (page true "100")
                                     [("scanner_mode", "1");
                                      ("theme", "dark%20blue")]))))))))
       scannerDelayInput value = "300 ms"
  /\ cookies
       (fst (Persisted.scannerDelayInput_change "300 ms"
               (init (page true "100")
                  [("scanner_mode", "1"); ("theme", "dark%20blue")])))
     = [("scanner_mode", "1"); ("theme", "dark%20blue");
        ("scanner_delay", "300%20ms")]
  /\ cookies
       (fst (Persisted.scannerDelayInput_change (Persisted.digits 5000)
               (init (page true "100")
                  [("scanner_mode", "1"); ("theme", "dark%20blue")])))
     = [("scanner_mode", "1"); ("theme", "dark%20blue")]
  /\ snd (@Persisted.load chrome "URI malformed"
            (init (page true "250") [("scanner_mode", "%")]))
     = inl (Cookies.URIError "URI malformed").
Proof.
  split; [reflexivity|].
  pose proof (@settings_survive_reload chrome "URI malformed"
                (init (page true "100") [("scanner_mode", "1"); ("theme", "dark%20blue")])
                (page true "250") eq_refl) as [_ [D [L _]]].
  split; [exact (D "300 ms" eq_refl eq_refl eq_refl eq_refl eq_refl)|].
  split; [reflexivity|].
  split.
  - apply (L (Persisted.digits 5000)). vm_compute. reflexivity.
  - pose proof (@settings_survive_reload chrome "URI malformed"
                  (init (page true "100") [("scanner_mode", "%")])
                  (page true "250") eq_refl) as [_ [_ [__ M]]].
    exact (proj1 (M "%" EmptyString EmptyString eq_refl eq_refl eq_refl)).
Defined.
